(** * Elkarbackup Ansible collection: reconciliation of Clients and Jobs

    A shallow embedding of [plugins/modules/elkarbackup_client.py] and
    [plugins/modules/elkarbackup_job.py], and the properties of the
    reconciliation they implement (lookup by name, field diff, and the
    single create / update / delete call).

    Conventions of the embedding:
    - JSON / Python values are the type [pyval]; a resource is a Python
      [dict], modelled as [gmap string pyval].  Fractional numbers and
      nested objects do not occur in the Client and Job representations
      and are left out.  Text is taken as byte strings.
    - Every HTTP call made through [requests] is logged, in order; the
      remote service is an oracle ([server]) giving the answer to each
      call.  Transport failures are outside the model.
    - [module.exit_json] and [module.fail_json] end the run (they call
      [sys.exit]); an uncaught Python exception ends it as well.  The
      runtime serialises the result it is given: [fail_json] raises
      [TypeError] when handed a [requests.Response]. *)

From Stdlib Require Import ZArith List String Ascii Bool Lia.
From stdpp Require Import base gmap strings list fin_maps.

Local Open Scope Z_scope.
Local Open Scope string_scope.
Local Open Scope list_scope.

(** ** Python values *)

#[local] Unset Elimination Schemes.
Inductive pyval : Type :=
| PNone
| PBool (b : bool)
| PInt (z : Z)
| PStr (s : string)
| PList (l : list pyval).
#[local] Set Elimination Schemes.

Inductive pyexc : Type :=
| KeyError (k : string)
| TypeError
| ValueError
| IndexError
| AttributeError.

(** Result of an expression that may raise. *)
Inductive exc (A : Type) : Type :=
| Ok (a : A)
| Err (e : pyexc).
Arguments Ok {A} a.
Arguments Err {A} e.

Definition exc_bind {A B} (x : exc A) (f : A -> exc B) : exc B :=
  match x with
  | Ok a => f a
  | Err e => Err e
  end.

Declare Scope exc_scope.
Delimit Scope exc_scope with exc.
Notation "x <- c1 ;; c2" := (exc_bind c1 (fun x => c2))
  (at level 100, c1 at next level, right associativity) : exc_scope.

(** [a == b] on the values above: [bool] is a subclass of [int], so
    [True == 1]; values of unrelated types are unequal. *)
Fixpoint py_eq (a b : pyval) {struct a} : bool :=
  match a, b with
  | PNone, PNone => true
  | PBool x, PBool y => Bool.eqb x y
  | PInt x, PInt y => Z.eqb x y
  | PBool x, PInt y => Z.eqb (Z.b2z x) y
  | PInt x, PBool y => Z.eqb x (Z.b2z y)
  | PStr x, PStr y => String.eqb x y
  | PList xs, PList ys =>
      (fix list_eq (xs ys : list pyval) {struct xs} : bool :=
         match xs, ys with
         | [], [] => true
         | x :: xs', y :: ys' => py_eq x y && list_eq xs' ys'
         | _, _ => false
         end) xs ys
  | _, _ => false
  end.

(** [a != b] *)
Definition py_ne (a b : pyval) : bool := negb (py_eq a b).

(** Values accepted as members of a [set]. *)
Definition hashable (v : pyval) : bool :=
  match v with
  | PList _ => false
  | _ => true
  end.

(** [set(v)]: the members of an iterable, each of which must be hashable.
    The set is represented by the list of its members; see [set_eqb]. *)
Definition py_set (v : pyval) : exc (list pyval) :=
  match v with
  | PList l => if forallb hashable l then Ok l else Err TypeError
  | PStr s => Ok (map (fun c => PStr (String c EmptyString)) (list_ascii_of_string s))
  | _ => Err TypeError
  end.

Definition mem (x : pyval) (l : list pyval) : bool := existsb (py_eq x) l.

(** [set(a) == set(b)]: each member of one is a member of the other. *)
Definition set_eqb (a b : list pyval) : bool :=
  forallb (fun x => mem x b) a && forallb (fun y => mem y a) b.

(** *** [int(v)] *)

Definition is_space (c : ascii) : bool :=
  let n := N_of_ascii c in
  (((9 <=? n) && (n <=? 13)) || ((28 <=? n) && (n <=? 32)))%N.

Definition digit_of (c : ascii) : option Z :=
  let n := N_of_ascii c in
  if ((48 <=? n) && (n <=? 57))%N then Some (Z.of_N n - 48) else None.

Fixpoint lstrip (s : list ascii) : list ascii :=
  match s with
  | c :: s' => if is_space c then lstrip s' else s
  | [] => []
  end.

Definition strip (s : list ascii) : list ascii := rev (lstrip (rev (lstrip s))).

(** Decimal digits, with single underscores allowed between digits. *)
Fixpoint digits (after_digit : bool) (acc : Z) (s : list ascii) : option Z :=
  match s with
  | [] => if after_digit then Some acc else None
  | c :: s' =>
      match digit_of c with
      | Some d => digits true (10 * acc + d) s'
      | None =>
          if Ascii.eqb c "_"%char && after_digit then digits false acc s' else None
      end
  end.

Definition int_of_str (s : string) : option Z :=
  match strip (list_ascii_of_string s) with
  | "-"%char :: ds => option_map Z.opp (digits false 0 ds)
  | "+"%char :: ds => digits false 0 ds
  | ds => digits false 0 ds
  end.

Definition py_int (v : pyval) : exc Z :=
  match v with
  | PInt z => Ok z
  | PBool b => Ok (Z.b2z b)
  | PStr s => match int_of_str s with Some z => Ok z | None => Err ValueError end
  | PNone => Err TypeError
  | PList _ => Err TypeError
  end.

(** [l[i]] for a list *)
Definition index {A} (l : list A) (i : nat) : exc A :=
  match l !! i with
  | Some x => Ok x
  | None => Err IndexError
  end.

(** [d[k]] for a dict *)
Definition getitem (d : gmap string pyval) (k : string) : exc pyval :=
  match d !! k with
  | Some v => Ok v
  | None => Err (KeyError k)
  end.

(** ** The remote service and the run of a module *)

(** The two REST collections: [/api/clients...] and [/api/jobs...]. *)
Inductive kind : Type := Clients | Jobs.

(** One call through [requests]; the URL prefix and the credentials are
    the same in every call of a run and are not recorded. *)
Inductive request : Type :=
| Get (k : kind) (name : string)
| Post (k : kind) (body : gmap string pyval)
| Put (k : kind) (id : pyval) (body : gmap string pyval)
| Delete (k : kind) (id : pyval).

(** A [requests.Response]: its truth value ([response.ok]) and its
    parsed body ([response.json()]). *)
Record response : Type := { resp_ok : bool; resp_json : gmap string pyval }.

Record server : Type := {
  on_get : kind -> string -> list (gmap string pyval);
  on_post : kind -> gmap string pyval -> response;
  on_put : kind -> pyval -> gmap string pyval -> response;
  on_delete : kind -> pyval -> response }.

(** What a helper hands back: a plain value or the response itself. *)
Inductive returned (A : Type) : Type :=
| Value (a : A)
| Resp (r : response).
Arguments Value {A} a.
Arguments Resp {A} r.

(** Objects stored under [result['api_result']]. *)
Inductive pyobj : Type :=
| ObjVal (v : pyval)
| ObjDict (d : gmap string pyval)
| ObjResponse (r : response).

(** The [result] dict: [changed], and [id] and [api_result] when set. *)
Record result : Type := {
  r_changed : bool;
  r_id : option Z;
  r_api_result : option pyobj }.

Inductive completion (A : Type) : Type :=
| Normal (a : A)
| Raised (e : pyexc)
| ExitJson (r : result)
| FailJson (msg : string) (r : result).
Arguments Normal {A} a.
Arguments Raised {A} e.
Arguments ExitJson {A} r.
Arguments FailJson {A} msg r.

(** A computation: it extends the log of calls and completes. *)
Definition M (A : Type) : Type := list request -> list request * completion A.

Definition ret {A} (a : A) : M A := fun log => (log, Normal a).

Definition bind {A B} (m : M A) (f : A -> M B) : M B :=
  fun log =>
    match m log with
    | (log', Normal a) => f a log'
    | (log', Raised e) => (log', Raised e)
    | (log', ExitJson r) => (log', ExitJson r)
    | (log', FailJson msg r) => (log', FailJson msg r)
    end.

Definition lift {A} (x : exc A) : M A :=
  fun log => match x with Ok a => (log, Normal a) | Err e => (log, Raised e) end.

Definition exit_json {A} (r : result) : M A := fun log => (log, ExitJson r).

(** Whether the runtime can turn the object into JSON: it can for plain
    values and dicts, not for a [requests.Response]. *)
Definition serialisable (o : pyobj) : bool :=
  match o with
  | ObjResponse _ => false
  | _ => true
  end.

(** [module.fail_json(msg=msg, **result)]: the runtime serialises the
    result before it exits, and raises [TypeError] on a value it cannot
    serialise. *)
Definition fail_json {A} (msg : string) (r : result) : M A :=
  fun log =>
    match r_api_result r with
    | Some o => if serialisable o then (log, FailJson msg r) else (log, Raised TypeError)
    | None => (log, FailJson msg r)
    end.

Declare Scope run_scope.
Delimit Scope run_scope with run.
Notation "x <- c1 ;; c2" := (bind c1 (fun x => c2))
  (at level 100, c1 at next level, right associativity) : run_scope.

Definition is_write (r : request) : bool :=
  match r with
  | Get _ _ => false
  | _ => true
  end.

Definition writes (log : list request) : list request := filter is_write log.

(** ** The field comparisons of [run_module]

    Both modules compare the fetched resource with the parameters one
    field at a time, overwriting the field and raising the [changed]
    flag when it differs. *)

(** [if d[k] != v: d[k] = v; changed = True] *)
Definition scalar_field (k : string) (v : pyval)
    (st : gmap string pyval * bool) : exc (gmap string pyval * bool) :=
  (r <- getitem st.1 k ;;
   if py_ne r v then Ok (<[k:=v]> st.1, true) else Ok st)%exc.

(** [if set(d[k]) != set(v): d[k] = v; changed = True] *)
Definition set_field (k : string) (v : pyval)
    (st : gmap string pyval * bool) : exc (gmap string pyval * bool) :=
  (r <- getitem st.1 k ;;
   rs <- py_set r ;;
   vs <- py_set v ;;
   if negb (set_eqb rs vs) then Ok (<[k:=v]> st.1, true) else Ok st)%exc.

(** [if d[k] != src[k']: d[k] = src[k']; changed = True] *)
Definition ref_field (k : string) (src : gmap string pyval) (k' : string)
    (st : gmap string pyval * bool) : exc (gmap string pyval * bool) :=
  (r <- getitem st.1 k ;;
   v <- getitem src k' ;;
   if py_ne r v then Ok (<[k:=v]> st.1, true) else Ok st)%exc.

(** [type(id) is int and id != 0] *)
Definition nonzero_int (x : returned pyval) : option Z :=
  match x with
  | Value (PInt z) => if Z.eqb z 0 then None else Some z
  | _ => None
  end.

(** [id.json()] *)
Definition json_method (x : returned pyval) : exc (gmap string pyval) :=
  match x with
  | Resp r => Ok (resp_json r)
  | Value _ => Err AttributeError
  end.

Definition obj_of (x : returned pyval) : pyobj :=
  match x with
  | Value v => ObjVal v
  | Resp r => ObjResponse r
  end.

(** The value of the parameter [state]. *)
Inductive presence : Type := present | absent.

Definition ints (l : list Z) : pyval := PList (map PInt l).
Definition strs (l : list string) : pyval := PList (map PStr l).
Definition opt_str (o : option string) : pyval :=
  match o with
  | Some s => PStr s
  | None => PNone
  end.

Definition set_changed (c : bool) (r : result) : result :=
  {| r_changed := c; r_id := r_id r; r_api_result := r_api_result r |}.
Definition set_id (i : Z) (r : result) : result :=
  {| r_changed := r_changed r; r_id := Some i; r_api_result := r_api_result r |}.
Definition set_api_result (o : pyobj) (r : result) : result :=
  {| r_changed := r_changed r; r_id := r_id r; r_api_result := Some o |}.

(** The loop of [get_client_by_name] and [get_job_by_name]:
    [for c in clients: if c['name'] == name: return c], then
    [return None]. *)
Fixpoint scan_name (name : string) (l : list (gmap string pyval))
    : exc (option (gmap string pyval)) :=
  match l with
  | [] => Ok None
  | c :: l' =>
      (n <- getitem c "name" ;;
       if py_eq n (PStr name) then Ok (Some c) else scan_name name l')%exc
  end.

Section Requests.
Variable srv : server.

(** [requests.get(url, params={'name': name}).json()] *)
Definition requests_get (k : kind) (name : string) : M (list (gmap string pyval)) :=
  fun log => (log ++ [Get k name], Normal (on_get srv k name)).

Definition requests_post (k : kind) (body : gmap string pyval) : M response :=
  fun log => (log ++ [Post k body], Normal (on_post srv k body)).

Definition requests_put (k : kind) (id : pyval) (body : gmap string pyval) : M response :=
  fun log => (log ++ [Put k id body], Normal (on_put srv k id body)).

Definition requests_delete (k : kind) (id : pyval) : M response :=
  fun log => (log ++ [Delete k id], Normal (on_delete srv k id)).
End Requests.

(** ** [elkarbackup_client.py] *)

Module Client.

(** [module.params], after the argument validation of the runtime. *)
Record params : Type := {
  description : string;
  is_active : bool;
  max_parallel_jobs : Z;
  name : string;
  post_scripts : list Z;
  pre_scripts : list Z;
  quota : Z;
  rsync_long_args : string;
  rsync_short_args : string;
  ssh_args : string;
  state : presence;
  url : string }.

(** Lines 221-254: the coercion of [quota], then the comparisons. *)
Definition diff (p : params) (client : gmap string pyval)
    : exc (gmap string pyval * bool) :=
  (q <- getitem client "quota" ;;
   q <- py_int q ;;
   let client := <["quota" := PInt q]> client in
   st <- scalar_field "description" (PStr (description p)) (client, false) ;;
   st <- scalar_field "isActive" (PBool (is_active p)) st ;;
   st <- scalar_field "maxParallelJobs" (PInt (max_parallel_jobs p)) st ;;
   st <- scalar_field "name" (PStr (name p)) st ;;
   st <- set_field "postScripts" (ints (post_scripts p)) st ;;
   st <- set_field "preScripts" (ints (pre_scripts p)) st ;;
   st <- scalar_field "quota" (PInt (quota p)) st ;;
   st <- scalar_field "rsyncLongArgs" (PStr (rsync_long_args p)) st ;;
   st <- scalar_field "rsyncShortArgs" (PStr (rsync_short_args p)) st ;;
   st <- scalar_field "sshArgs" (PStr (ssh_args p)) st ;;
   scalar_field "url" (PStr (url p)) st)%exc.

(** Lines 267-279: the dict sent on creation. *)
Definition new_client (p : params) : gmap string pyval :=
  <["description" := PStr (description p)]>
  (<["isActive" := PBool (is_active p)]>
  (<["maxParallelJobs" := PInt (max_parallel_jobs p)]>
  (<["name" := PStr (name p)]>
  (<["preScripts" := ints (pre_scripts p)]>
  (<["postScripts" := ints (post_scripts p)]>
  (<["quota" := PInt (quota p)]>
  (<["rsyncLongArgs" := PStr (rsync_long_args p)]>
  (<["rsyncShortArgs" := PStr (rsync_short_args p)]>
  (<["sshArgs" := PStr (ssh_args p)]>
  (<["url" := PStr (url p)]> ∅)))))))))).

Section Run.
Variable srv : server.

Definition create_client (client : gmap string pyval) : M (returned pyval) :=
  (response <- requests_post srv Clients client ;;
   let new_client := resp_json response in
   match new_client !! "id" with
   | Some v => i <- lift (py_int v) ;; ret (Value (PInt i))
   | None => ret (Resp response)
   end)%run.

Definition delete_client (id : pyval) : M (returned pyval) :=
  (response <- requests_delete srv Clients id ;;
   if resp_ok response then ret (Value (PBool true)) else ret (Resp response))%run.

Definition get_client_by_name (name : string) : M (option (gmap string pyval)) :=
  (clients <- requests_get srv Clients name ;;
   if Nat.eqb (length clients) 1 then
     c <- lift (index clients 0) ;; ret (Some c)
   else if Nat.ltb 0 (length clients) then
     lift (scan_name name clients)
   else ret None)%run.

Definition update_client (client : gmap string pyval) : M (returned pyval) :=
  (id <- lift (getitem client "id") ;;
   response <- requests_put srv Clients id client ;;
   let new_client := resp_json response in
   match new_client !! "id" with
   | Some v => ret (Value v)
   | None => ret (Resp response)
   end)%run.

Definition run_module (p : params) : M unit :=
  (let result := {| r_changed := false; r_id := None; r_api_result := None |} in
   result <-
     match state p with
     | present =>
         client <- get_client_by_name (name p) ;;
         match client with
         | Some client =>
             st <- lift (diff p client) ;;
             let client := st.1 in
             let changed := st.2 in
             if changed then
               id <- update_client client ;;
               match nonzero_int id with
               | Some i => ret (set_id i (set_changed true result))
               | None =>
                   let result := set_changed false result in
                   body <- lift (json_method id) ;;
                   let result := set_api_result (ObjDict body) result in
                   fail_json "Client update failed" result
               end
             else ret (set_changed false result)
         | None =>
             let client := new_client p in
             id <- create_client client ;;
             match nonzero_int id with
             | Some i => ret (set_id i (set_changed true result))
             | None =>
                 let result := set_changed false result in
                 let result := set_api_result (obj_of id) result in
                 fail_json "Client creation failed" result
             end
         end
     | absent =>
         client <- get_client_by_name (name p) ;;
         match client with
         | Some client =>
             id <- lift (getitem client "id") ;;
             ok <- delete_client id ;;
             match ok with
             | Value (PBool true) => ret (set_changed true result)
             | _ =>
                 let result := set_changed false result in
                 let result := set_api_result (obj_of ok) result in
                 fail_json "Client deletion failed" result
             end
         | None => ret (set_changed false result)
         end
     end ;;
   exit_json result)%run.

(** A run of the module from an empty log. *)
Definition run (p : params) : list request * completion unit := run_module p [].
End Run.
End Client.

(** ** [elkarbackup_job.py] *)

Module Job.

(** [module.params], after the argument validation of the runtime. *)
Record params : Type := {
  backup_location : Z;
  client_name : string;
  description : string;
  exclude : option string;
  include : option string;
  is_active : bool;
  min_notification_level : Z;
  name : string;
  notifications_email : option string;
  notifications_to : list string;
  path : string;
  policy : Z;
  post_scripts : list Z;
  pre_scripts : list Z;
  token : string;
  state : presence;
  use_local_permissions : bool }.

(** Lines 265-313: the comparisons. *)
Definition diff (p : params) (client job : gmap string pyval)
    : exc (gmap string pyval * bool) :=
  (st <- scalar_field "backupLocation" (PInt (backup_location p)) (job, false) ;;
   st <- ref_field "client" client "id" st ;;
   st <- scalar_field "description" (PStr (description p)) st ;;
   st <- scalar_field "exclude" (opt_str (exclude p)) st ;;
   st <- scalar_field "include" (opt_str (include p)) st ;;
   st <- scalar_field "isActive" (PBool (is_active p)) st ;;
   st <- scalar_field "minNotificationLevel" (PInt (min_notification_level p)) st ;;
   st <- scalar_field "name" (PStr (name p)) st ;;
   st <- scalar_field "notificationsEmail" (opt_str (notifications_email p)) st ;;
   st <- set_field "notificationsTo" (strs (notifications_to p)) st ;;
   st <- scalar_field "path" (PStr (path p)) st ;;
   st <- scalar_field "policy" (PInt (policy p)) st ;;
   st <- set_field "postScripts" (ints (post_scripts p)) st ;;
   st <- set_field "preScripts" (ints (pre_scripts p)) st ;;
   st <- scalar_field "token" (PStr (token p)) st ;;
   scalar_field "useLocalPermissions" (PBool (use_local_permissions p)) st)%exc.

(** Lines 326-343: the dict sent on creation. *)
Definition new_job (p : params) (client : gmap string pyval)
    : exc (gmap string pyval) :=
  (client_id <- getitem client "id" ;;
   Ok (<["backupLocation" := PInt (backup_location p)]>
       (<["client" := client_id]>
       (<["description" := PStr (description p)]>
       (<["exclude" := opt_str (exclude p)]>
       (<["include" := opt_str (include p)]>
       (<["isActive" := PBool (is_active p)]>
       (<["minNotificationLevel" := PInt (min_notification_level p)]>
       (<["name" := PStr (name p)]>
       (<["notificationsEmail" := opt_str (notifications_email p)]>
       (<["notificationsTo" := strs (notifications_to p)]>
       (<["path" := PStr (path p)]>
       (<["policy" := PInt (policy p)]>
       (<["postScripts" := ints (post_scripts p)]>
       (<["preScripts" := ints (pre_scripts p)]>
       (<["token" := PStr (token p)]>
       (<["useLocalPermissions" := PBool (use_local_permissions p)]> ∅)))))))))))))))))%exc.

(** Line 261: [dict(title=..., detail=...)]. *)
Definition client_not_found (client_name : string) : gmap string pyval :=
  <["title" := PStr "Client name not found"]>
  (<["detail" := PStr ("Client name " ++ client_name ++ " not found")%string]> ∅).

Section Run.
Variable srv : server.

Definition create_job (job : gmap string pyval) : M (returned pyval) :=
  (response <- requests_post srv Jobs job ;;
   let new_job := resp_json response in
   match new_job !! "id" with
   | Some v => i <- lift (py_int v) ;; ret (Value (PInt i))
   | None => ret (Resp response)
   end)%run.

Definition delete_job (id : pyval) : M (returned pyval) :=
  (response <- requests_delete srv Jobs id ;;
   if resp_ok response then ret (Value (PBool true)) else ret (Resp response))%run.

Definition get_client_by_name (name : string) : M (option (gmap string pyval)) :=
  (clients <- requests_get srv Clients name ;;
   if Nat.eqb (length clients) 1 then
     c <- lift (index clients 0) ;; ret (Some c)
   else if Nat.ltb 0 (length clients) then
     lift (scan_name name clients)
   else ret None)%run.

Definition get_job_by_name (name : string) : M (option (gmap string pyval)) :=
  (jobs <- requests_get srv Jobs name ;;
   if Nat.eqb (length jobs) 1 then
     j <- lift (index jobs 0) ;; ret (Some j)
   else if Nat.ltb 0 (length jobs) then
     lift (scan_name name jobs)
   else ret None)%run.

Definition update_job (job : gmap string pyval) : M (returned pyval) :=
  (id <- lift (getitem job "id") ;;
   response <- requests_put srv Jobs id job ;;
   let new_job := resp_json response in
   match new_job !! "id" with
   | Some v => ret (Value v)
   | None => ret (Resp response)
   end)%run.

Definition run_module (p : params) : M unit :=
  (let result := {| r_changed := false; r_id := None; r_api_result := None |} in
   result <-
     match state p with
     | present =>
         client <- get_client_by_name (client_name p) ;;
         client <-
           match client with
           | None =>
               let result := set_changed false result in
               let result :=
                 set_api_result (ObjDict (client_not_found (client_name p))) result in
               fail_json "Play failed" result
           | Some client => ret client
           end ;;
         job <- get_job_by_name (name p) ;;
         match job with
         | Some job =>
             st <- lift (diff p client job) ;;
             let job := st.1 in
             let changed := st.2 in
             if changed then
               id <- update_job job ;;
               match nonzero_int id with
               | Some i => ret (set_id i (set_changed true result))
               | None =>
                   let result := set_changed false result in
                   body <- lift (json_method id) ;;
                   let result := set_api_result (ObjDict body) result in
                   fail_json "Job update failed" result
               end
             else ret (set_changed false result)
         | None =>
             job <- lift (new_job p client) ;;
             id <- create_job job ;;
             match nonzero_int id with
             | Some i => ret (set_id i (set_changed true result))
             | None =>
                 let result := set_changed false result in
                 body <- lift (json_method id) ;;
                 let result := set_api_result (ObjDict body) result in
                 fail_json "Job creation failed" result
             end
         end
     | absent =>
         job <- get_job_by_name (name p) ;;
         match job with
         | Some job =>
             id <- lift (getitem job "id") ;;
             ok <- delete_job id ;;
             match ok with
             | Value (PBool true) => ret (set_changed true result)
             | _ =>
                 let result := set_changed false result in
                 let result := set_api_result (obj_of ok) result in
                 fail_json "Job deletion failed" result
             end
         | None => ret (set_changed false result)
         end
     end ;;
   exit_json result)%run.

(** A run of the module from an empty log. *)
Definition run (p : params) : list request * completion unit := run_module p [].
End Run.
End Job.

(** ** The comparisons as a list of fields

    The chains of [if] blocks in the two [run_module] functions, read as
    data: which key is compared, with which parameter, and how. *)

Inductive field : Type :=
| Scalar (k : string) (v : pyval)
| SetOf (k : string) (v : pyval).

Definition field_key (f : field) : string :=
  match f with
  | Scalar k _ => k
  | SetOf k _ => k
  end.

Definition field_val (f : field) : pyval :=
  match f with
  | Scalar _ v => v
  | SetOf _ v => v
  end.

Definition compare (f : field) (st : gmap string pyval * bool)
    : exc (gmap string pyval * bool) :=
  match f with
  | Scalar k v => scalar_field k v st
  | SetOf k v => set_field k v st
  end.

Fixpoint compare_all (fs : list field) (st : gmap string pyval * bool)
    : exc (gmap string pyval * bool) :=
  match fs with
  | [] => Ok st
  | f :: fs' => (st' <- compare f st ;; compare_all fs' st')%exc
  end.

Definition client_fields (p : Client.params) : list field :=
  [ Scalar "description" (PStr (Client.description p));
    Scalar "isActive" (PBool (Client.is_active p));
    Scalar "maxParallelJobs" (PInt (Client.max_parallel_jobs p));
    Scalar "name" (PStr (Client.name p));
    SetOf "postScripts" (ints (Client.post_scripts p));
    SetOf "preScripts" (ints (Client.pre_scripts p));
    Scalar "quota" (PInt (Client.quota p));
    Scalar "rsyncLongArgs" (PStr (Client.rsync_long_args p));
    Scalar "rsyncShortArgs" (PStr (Client.rsync_short_args p));
    Scalar "sshArgs" (PStr (Client.ssh_args p));
    Scalar "url" (PStr (Client.url p)) ].

Definition job_fields (p : Job.params) (client_id : pyval) : list field :=
  [ Scalar "backupLocation" (PInt (Job.backup_location p));
    Scalar "client" client_id;
    Scalar "description" (PStr (Job.description p));
    Scalar "exclude" (opt_str (Job.exclude p));
    Scalar "include" (opt_str (Job.include p));
    Scalar "isActive" (PBool (Job.is_active p));
    Scalar "minNotificationLevel" (PInt (Job.min_notification_level p));
    Scalar "name" (PStr (Job.name p));
    Scalar "notificationsEmail" (opt_str (Job.notifications_email p));
    SetOf "notificationsTo" (strs (Job.notifications_to p));
    Scalar "path" (PStr (Job.path p));
    Scalar "policy" (PInt (Job.policy p));
    SetOf "postScripts" (ints (Job.post_scripts p));
    SetOf "preScripts" (ints (Job.pre_scripts p));
    Scalar "token" (PStr (Job.token p));
    Scalar "useLocalPermissions" (PBool (Job.use_local_permissions p)) ].

(** The lookup of [get_client_by_name] / [get_job_by_name] once the
    listing is known. *)
Definition locate (name : string) (l : list (gmap string pyval))
    : exc (option (gmap string pyval)) :=
  if Nat.eqb (length l) 1 then (c <- index l 0 ;; Ok (Some c))%exc
  else if Nat.ltb 0 (length l) then scan_name name l
  else Ok None.

(** ** What the comparisons test *)

(** Two collections with the same members, as [set_eqb] tests it. *)
Definition same_members (a b : list pyval) : Prop :=
  (forall x, In x a -> exists y, In y b /\ py_eq x y = true) /\
  (forall y, In y b -> exists x, In x a /\ py_eq y x = true).

(** The remote value of one field passes the test of its comparison:
    [==] for a scalar field, equality of sets for a set-valued one. *)
Definition matches (d : gmap string pyval) (f : field) : Prop :=
  match f with
  | Scalar k v => exists r, d !! k = Some r /\ py_eq r v = true
  | SetOf k v =>
      exists r rs vs, d !! k = Some r /\ py_set r = Ok rs /\ py_set v = Ok vs /\
                      same_members rs vs
  end.

(** *** Agreement of a remote resource with the parameters

    Equality of values as Python defines it, written as a relation:
    equal constants are equal, [True] and [False] equal [1] and [0],
    lists are equal member by member, and nothing else is. *)
#[local] Unset Elimination Schemes.
Inductive py_equal : pyval -> pyval -> Prop :=
| equal_none : py_equal PNone PNone
| equal_bool (b : bool) : py_equal (PBool b) (PBool b)
| equal_int (z : Z) : py_equal (PInt z) (PInt z)
| equal_bool_int (b : bool) : py_equal (PBool b) (PInt (Z.b2z b))
| equal_int_bool (b : bool) : py_equal (PInt (Z.b2z b)) (PBool b)
| equal_str (s : string) : py_equal (PStr s) (PStr s)
| equal_list (xs ys : list pyval) : Forall2 py_equal xs ys -> py_equal (PList xs) (PList ys).
#[local] Set Elimination Schemes.

(** Two collections with the same members, up to equality of values. *)
Definition same_elements (a b : list pyval) : Prop :=
  (forall x, In x a -> exists y, In y b /\ py_equal x y) /\
  (forall y, In y b -> exists x, In x a /\ py_equal y x).

(** The remote value of a field agrees with the desired one: for a
    scalar field the two are equal values (a null is equal to a null
    only); for a set-valued field they have the same members. *)
Definition agrees (d : gmap string pyval) (f : field) : Prop :=
  match f with
  | Scalar k v => exists r, d !! k = Some r /\ py_equal r v
  | SetOf k v =>
      exists r rs vs, d !! k = Some r /\ py_set r = Ok rs /\ py_set v = Ok vs /\
                      same_elements rs vs
  end.

(** A Client agrees with the parameters when, its quota read as an
    integer, every field agrees. *)
Definition client_agrees (p : Client.params) (c : gmap string pyval) : Prop :=
  exists qv q, c !! "quota" = Some qv /\ py_int qv = Ok q /\
               Forall (agrees (<["quota" := PInt q]> c)) (client_fields p).

(** A Job agrees with the parameters, for the resolved Client, when
    every field agrees, the [client] reference included. *)
Definition job_agrees (p : Job.params) (client job : gmap string pyval) : Prop :=
  exists client_id, client !! "id" = Some client_id /\
                    Forall (agrees job) (job_fields p client_id).

(** *** Satisfaction in the words of the specification

    Section 4.3 of the specification has the fields that may be null
  compared "treating an absent/empty sentinel consistently with an
  explicit null": for [exclude], [include] and [notificationsEmail],
  an entry that is missing, null or the empty string stands for a
  null.  The other fields are compared as above. *)
Definition is_nullable (k : string) : bool :=
String.eqb k "exclude" || String.eqb k "include" || String.eqb k "notificationsEmail".

Definition stands_for_null (o : option pyval) : Prop :=
o = None \/ o = Some PNone \/ o = Some (PStr EmptyString).

Definition spec_agrees (d : gmap string pyval) (f : field) : Prop :=
agrees d f \/
(is_nullable (field_key f) = true /\
 stands_for_null (d !! field_key f) /\ stands_for_null (Some (field_val f))).

Definition job_satisfies_spec (p : Job.params) (client job : gmap string pyval) : Prop :=
exists client_id, client !! "id" = Some client_id /\
                  Forall (spec_agrees job) (job_fields p client_id).

(** Structural induction on values, through the lists. *)
Section PyvalInd.
Variable P : pyval -> Prop.
Hypothesis HNone : P PNone.
Hypothesis HBool : forall b, P (PBool b).
Hypothesis HInt : forall z, P (PInt z).
Hypothesis HStr : forall s, P (PStr s).
Hypothesis HList : forall l, Forall P l -> P (PList l).

Fixpoint pyval_ind (v : pyval) : P v :=
match v with
| PNone => HNone
| PBool b => HBool b
| PInt z => HInt z
| PStr s => HStr s
| PList l =>
    HList l ((fix all (l : list pyval) : Forall P l :=
                match l with
                | [] => @List.Forall_nil _ P
                | x :: l' => @List.Forall_cons _ P x l' (pyval_ind x) (all l')
                end) l)
end.
End PyvalInd.

(** The comparison can be evaluated: the key is there and, for a
  set-valued field, both sides can be made into sets. *)
Definition comparable (d : gmap string pyval) (f : field) : Prop :=
match f with
| Scalar k _ => is_Some (d !! k)
| SetOf k v =>
    exists r rs vs, d !! k = Some r /\ py_set r = Ok rs /\ py_set v = Ok vs
end.

Definition completion_of {A} (x : exc A) : completion A :=
match x with
| Ok a => Normal a
| Err e => Raised e
end.

(** The three shapes of [result] at the end of a run. *)
Definition unchanged : result :=
{| r_changed := false; r_id := None; r_api_result := None |}.
Definition success (i : Z) : result :=
{| r_changed := true; r_id := Some i; r_api_result := None |}.
Definition failure (o : pyobj) : result :=
{| r_changed := false; r_id := None; r_api_result := Some o |}.

(** How a run ends, given the answer to its write call (read off the
  branches of [run_module] that follow the call). *)
Definition updated (msg : string) (resp : response) : completion unit :=
match resp_json resp !! "id" with
| Some (PInt z) => if Z.eqb z 0 then Raised AttributeError else ExitJson (success z)
| Some _ => Raised AttributeError
| None => FailJson msg (failure (ObjDict (resp_json resp)))
end.

Definition client_created (resp : response) : completion unit :=
match resp_json resp !! "id" with
| Some v =>
    match py_int v with
    | Ok i =>
        if Z.eqb i 0 then FailJson "Client creation failed" (failure (ObjVal (PInt i)))
        else ExitJson (success i)
    | Err e => Raised e
    end
| None => Raised TypeError
end.

Definition job_created (resp : response) : completion unit :=
match resp_json resp !! "id" with
| Some v =>
    match py_int v with
    | Ok i => if Z.eqb i 0 then Raised AttributeError else ExitJson (success i)
    | Err e => Raised e
    end
| None => FailJson "Job creation failed" (failure (ObjDict (resp_json resp)))
end.

Definition deleted (msg : string) (resp : response) : completion unit :=
if resp_ok resp then
  ExitJson {| r_changed := true; r_id := None; r_api_result := None |}
else Raised TypeError.

(** [c['name'] == name], for a resource that has a name. *)
Definition has_name (name : string) (c : gmap string pyval) : bool :=
match c !! "name" with
| Some n => py_eq n (PStr name)
| None => false
end.

(** ** Sample data *)

(** A service that lists the given resources and gives one fixed answer
  to every write. *)
Definition fixed_server (clients jobs : list (gmap string pyval)) (answer : response)
  : server :=
{| on_get := fun k _ => match k with Clients => clients | Jobs => jobs end;
   on_post := fun _ _ => answer;
   on_put := fun _ _ _ => answer;
   on_delete := fun _ _ => answer |}.

Definition answer_id (v : pyval) : response :=
{| resp_ok := true; resp_json := <["id" := v]> ∅ |}.

Definition answer_error : response :=
{| resp_ok := false;
   resp_json := <["title" := PStr "An error occurred"]>
                (<["detail" := PStr "Script 1 is not a client pre script"]> ∅) |}.

(** The playbook example of [elkarbackup_client.py]. *)
Definition name1_params : Client.params :=
{| Client.description := "Description for Name1";
   Client.is_active := false;
   Client.max_parallel_jobs := 4;
   Client.name := "Name1";
   Client.post_scripts := [2];
   Client.pre_scripts := [1; 2];
   Client.quota := 20000;
   Client.rsync_long_args := "--longarg";
   Client.rsync_short_args := "-fGE";
   Client.ssh_args := "-P 1000";
   Client.state := present;
   Client.url := "name1.example.com" |}.

Definition name1_absent : Client.params :=
{| Client.description := EmptyString;
   Client.is_active := true;
   Client.max_parallel_jobs := 1;
   Client.name := "Name1";
   Client.post_scripts := [];
   Client.pre_scripts := [];
   Client.quota := -1;
   Client.rsync_long_args := EmptyString;
   Client.rsync_short_args := EmptyString;
   Client.ssh_args := EmptyString;
   Client.state := absent;
   Client.url := EmptyString |}.

(** A stored Client that agrees with [name1_params]; the service
  serializes the quota as a string. *)
Definition name1_remote : gmap string pyval :=
list_to_map
  [ ("id", PInt 1);
    ("name", PStr "Name1");
    ("description", PStr "Description for Name1");
    ("isActive", PBool false);
    ("maxParallelJobs", PInt 4);
    ("owner", PInt 1);
    ("postScripts", ints [2]);
    ("preScripts", ints [2; 1]);
    ("quota", PStr "20000");
    ("rsyncLongArgs", PStr "--longarg");
    ("rsyncShortArgs", PStr "-fGE");
    ("sshArgs", PStr "-P 1000");
    ("url", PStr "name1.example.com") ].

(** The same Client under another name and with another description. *)
Definition name10_remote : gmap string pyval :=
<["id" := PInt 2]> (<["name" := PStr "Name10"]> name1_remote).

Definition name1_old_description : gmap string pyval :=
<["description" := PStr "old"]> name1_remote.

(** The playbook example of [elkarbackup_job.py], with no patterns. *)
Definition job1_params : Job.params :=
{| Job.backup_location := 1;
   Job.client_name := "Name1";
   Job.description := "Test description for job1";
   Job.exclude := None;
   Job.include := None;
   Job.is_active := false;
   Job.min_notification_level := 0;
   Job.name := "job1";
   Job.notifications_email := Some "testjob@example.com";
   Job.notifications_to := ["admin"; "owner"; "email"];
   Job.path := "/backup";
   Job.policy := 1;
   Job.post_scripts := [1; 2];
   Job.pre_scripts := [1];
   Job.token := "testoken";
   Job.state := present;
   Job.use_local_permissions := true |}.

Definition job1_absent : Job.params :=
{| Job.backup_location := 1;
   Job.client_name := EmptyString;
   Job.description := EmptyString;
   Job.exclude := None;
   Job.include := None;
   Job.is_active := true;
   Job.min_notification_level := 0;
   Job.name := "job1";
   Job.notifications_email := None;
   Job.notifications_to := [EmptyString];
   Job.path := EmptyString;
   Job.policy := 1;
   Job.post_scripts := [];
   Job.pre_scripts := [];
   Job.token := EmptyString;
   Job.state := absent;
   Job.use_local_permissions := true |}.

(** A stored Job that agrees with [job1_params] for the Client 1. *)
Definition job1_remote : gmap string pyval :=
list_to_map
  [ ("id", PInt 7);
    ("backupLocation", PInt 1);
    ("client", PInt 1);
    ("description", PStr "Test description for job1");
    ("exclude", PNone);
    ("include", PNone);
    ("isActive", PBool false);
    ("minNotificationLevel", PInt 0);
    ("name", PStr "job1");
    ("notificationsEmail", PStr "testjob@example.com");
    ("notificationsTo", strs ["owner"; "admin"; "email"]);
    ("path", PStr "/backup");
    ("policy", PInt 1);
    ("postScripts", ints [1; 2]);
    ("preScripts", ints [1]);
    ("token", PStr "testoken");
    ("useLocalPermissions", PBool true) ].

(** The same Job, its exclude pattern stored as the empty string. *)
Definition job1_empty_exclude : gmap string pyval :=
<["exclude" := PStr EmptyString]> job1_remote.

Definition job10_remote : gmap string pyval :=
<["name" := PStr "job10"]> job1_remote.

Definition job1_old_path : gmap string pyval :=
<["path" := PStr "/old"]> job1_remote.

(** The [changed] flag tells a write that went through from one that
  failed: set on a normal exit, cleared on [fail_json]. *)
Definition reports_write (c : completion unit) : Prop :=
(forall r, c = ExitJson r -> r_changed r = true) /\
(forall msg r, c = FailJson msg r -> r_changed r = false).

(** ** The shapes a run can take

  Every path through [run_module], with the calls it has made and the
  way it ends.  [client_run_view_ok] and [job_run_view_ok] below show
  that a run always has one of these shapes. *)

Definition request_kind (r : request) : kind :=
match r with
| Get k _ => k
| Post k _ => k
| Put k _ _ => k
| Delete k _ => k
end.

Definition is_delete (r : request) : bool :=
match r with
| Delete _ _ => true
| _ => false
end.

Inductive client_run_view (srv : server) (p : Client.params)
  : list request * completion unit -> Prop :=
| CV_lookup_raises (e : pyexc) :
  locate (Client.name p) (on_get srv Clients (Client.name p)) = Err e ->
  client_run_view srv p ([Get Clients (Client.name p)], Raised e)
| CV_create :
  Client.state p = present ->
  locate (Client.name p) (on_get srv Clients (Client.name p)) = Ok None ->
  client_run_view srv p
    ([Get Clients (Client.name p); Post Clients (Client.new_client p)],
     client_created (on_post srv Clients (Client.new_client p)))
| CV_diff_raises (c : gmap string pyval) (e : pyexc) :
  Client.state p = present ->
  locate (Client.name p) (on_get srv Clients (Client.name p)) = Ok (Some c) ->
  Client.diff p c = Err e ->
  client_run_view srv p ([Get Clients (Client.name p)], Raised e)
| CV_noop (c c' : gmap string pyval) :
  Client.state p = present ->
  locate (Client.name p) (on_get srv Clients (Client.name p)) = Ok (Some c) ->
  Client.diff p c = Ok (c', false) ->
  client_run_view srv p ([Get Clients (Client.name p)], ExitJson unchanged)
| CV_update_no_id (c c' : gmap string pyval) :
  Client.state p = present ->
  locate (Client.name p) (on_get srv Clients (Client.name p)) = Ok (Some c) ->
  Client.diff p c = Ok (c', true) ->
  c' !! "id" = None ->
  client_run_view srv p ([Get Clients (Client.name p)], Raised (KeyError "id"))
| CV_update (c c' : gmap string pyval) (i : pyval) :
  Client.state p = present ->
  locate (Client.name p) (on_get srv Clients (Client.name p)) = Ok (Some c) ->
  Client.diff p c = Ok (c', true) ->
  c' !! "id" = Some i ->
  client_run_view srv p
    ([Get Clients (Client.name p); Put Clients i c'],
     updated "Client update failed" (on_put srv Clients i c'))
| CV_absent_missing :
  Client.state p = absent ->
  locate (Client.name p) (on_get srv Clients (Client.name p)) = Ok None ->
  client_run_view srv p ([Get Clients (Client.name p)], ExitJson unchanged)
| CV_delete_no_id (c : gmap string pyval) :
  Client.state p = absent ->
  locate (Client.name p) (on_get srv Clients (Client.name p)) = Ok (Some c) ->
  c !! "id" = None ->
  client_run_view srv p ([Get Clients (Client.name p)], Raised (KeyError "id"))
| CV_delete (c : gmap string pyval) (i : pyval) :
  Client.state p = absent ->
  locate (Client.name p) (on_get srv Clients (Client.name p)) = Ok (Some c) ->
  c !! "id" = Some i ->
  client_run_view srv p
    ([Get Clients (Client.name p); Delete Clients i],
     deleted "Client deletion failed" (on_delete srv Clients i)).

Inductive job_run_view (srv : server) (p : Job.params)
  : list request * completion unit -> Prop :=
| JV_client_lookup_raises (e : pyexc) :
  Job.state p = present ->
  locate (Job.client_name p) (on_get srv Clients (Job.client_name p)) = Err e ->
  job_run_view srv p ([Get Clients (Job.client_name p)], Raised e)
| JV_no_client :
  Job.state p = present ->
  locate (Job.client_name p) (on_get srv Clients (Job.client_name p)) = Ok None ->
  job_run_view srv p
    ([Get Clients (Job.client_name p)],
     FailJson "Play failed"
       (failure (ObjDict (Job.client_not_found (Job.client_name p)))))
| JV_lookup_raises (client : gmap string pyval) (e : pyexc) :
  Job.state p = present ->
  locate (Job.client_name p) (on_get srv Clients (Job.client_name p)) = Ok (Some client) ->
  locate (Job.name p) (on_get srv Jobs (Job.name p)) = Err e ->
  job_run_view srv p
    ([Get Clients (Job.client_name p); Get Jobs (Job.name p)], Raised e)
| JV_new_job_raises (client : gmap string pyval) (e : pyexc) :
  Job.state p = present ->
  locate (Job.client_name p) (on_get srv Clients (Job.client_name p)) = Ok (Some client) ->
  locate (Job.name p) (on_get srv Jobs (Job.name p)) = Ok None ->
  Job.new_job p client = Err e ->
  job_run_view srv p
    ([Get Clients (Job.client_name p); Get Jobs (Job.name p)], Raised e)
| JV_create (client j : gmap string pyval) :
  Job.state p = present ->
  locate (Job.client_name p) (on_get srv Clients (Job.client_name p)) = Ok (Some client) ->
  locate (Job.name p) (on_get srv Jobs (Job.name p)) = Ok None ->
  Job.new_job p client = Ok j ->
  job_run_view srv p
    ([Get Clients (Job.client_name p); Get Jobs (Job.name p); Post Jobs j],
     job_created (on_post srv Jobs j))
| JV_diff_raises (client job : gmap string pyval) (e : pyexc) :
  Job.state p = present ->
  locate (Job.client_name p) (on_get srv Clients (Job.client_name p)) = Ok (Some client) ->
  locate (Job.name p) (on_get srv Jobs (Job.name p)) = Ok (Some job) ->
  Job.diff p client job = Err e ->
  job_run_view srv p
    ([Get Clients (Job.client_name p); Get Jobs (Job.name p)], Raised e)
| JV_noop (client job job' : gmap string pyval) :
  Job.state p = present ->
  locate (Job.client_name p) (on_get srv Clients (Job.client_name p)) = Ok (Some client) ->
  locate (Job.name p) (on_get srv Jobs (Job.name p)) = Ok (Some job) ->
  Job.diff p client job = Ok (job', false) ->
  job_run_view srv p
    ([Get Clients (Job.client_name p); Get Jobs (Job.name p)], ExitJson unchanged)
| JV_update_no_id (client job job' : gmap string pyval) :
  Job.state p = present ->
  locate (Job.client_name p) (on_get srv Clients (Job.client_name p)) = Ok (Some client) ->
  locate (Job.name p) (on_get srv Jobs (Job.name p)) = Ok (Some job) ->
  Job.diff p client job = Ok (job', true) ->
  job' !! "id" = None ->
  job_run_view srv p
    ([Get Clients (Job.client_name p); Get Jobs (Job.name p)], Raised (KeyError "id"))
| JV_update (client job job' : gmap string pyval) (i : pyval) :
  Job.state p = present ->
  locate (Job.client_name p) (on_get srv Clients (Job.client_name p)) = Ok (Some client) ->
  locate (Job.name p) (on_get srv Jobs (Job.name p)) = Ok (Some job) ->
  Job.diff p client job = Ok (job', true) ->
  job' !! "id" = Some i ->
  job_run_view srv p
    ([Get Clients (Job.client_name p); Get Jobs (Job.name p); Put Jobs i job'],
     updated "Job update failed" (on_put srv Jobs i job'))
| JV_absent_lookup_raises (e : pyexc) :
  Job.state p = absent ->
  locate (Job.name p) (on_get srv Jobs (Job.name p)) = Err e ->
  job_run_view srv p ([Get Jobs (Job.name p)], Raised e)
| JV_absent_missing :
  Job.state p = absent ->
  locate (Job.name p) (on_get srv Jobs (Job.name p)) = Ok None ->
  job_run_view srv p ([Get Jobs (Job.name p)], ExitJson unchanged)
| JV_delete_no_id (job : gmap string pyval) :
  Job.state p = absent ->
  locate (Job.name p) (on_get srv Jobs (Job.name p)) = Ok (Some job) ->
  job !! "id" = None ->
  job_run_view srv p ([Get Jobs (Job.name p)], Raised (KeyError "id"))
| JV_delete (job : gmap string pyval) (i : pyval) :
  Job.state p = absent ->
  locate (Job.name p) (on_get srv Jobs (Job.name p)) = Ok (Some job) ->
  job !! "id" = Some i ->
  job_run_view srv p
    ([Get Jobs (Job.name p); Delete Jobs i],
     deleted "Job deletion failed" (on_delete srv Jobs i)).

(** A removal of Name1 written with other values for the remaining
  parameters. *)
Definition name1_absent_verbose : Client.params :=
{| Client.description := "to be removed";
   Client.is_active := false;
   Client.max_parallel_jobs := 8;
   Client.name := "Name1";
   Client.post_scripts := [3];
   Client.pre_scripts := [];
   Client.quota := 5;
   Client.rsync_long_args := EmptyString;
   Client.rsync_short_args := EmptyString;
   Client.ssh_args := EmptyString;
   Client.state := absent;
   Client.url := EmptyString |}.

(** A listed Client without a name. *)
Definition nameless_remote : gmap string pyval := delete "name" name1_remote.

(** A stored Client without a quota, and one whose quota is null. *)
Definition name1_no_quota : gmap string pyval := delete "quota" name1_remote.
Definition name1_null_quota : gmap string pyval := <["quota" := PNone]> name1_remote.

(** ** Basic facts on values *)

Lemma py_eq_refl (v : pyval) : py_eq v v = true.
Proof.
induction v using pyval_ind; simpl.
- reflexivity.
- by destruct b.
- apply Z.eqb_refl.
- apply String.eqb_refl.
- induction H as [|x l Hx _ IH]; [reflexivity|].
  by rewrite Hx, IH.
Qed.

Lemma py_eq_str (r : pyval) (s : string) : py_eq r (PStr s) = true <-> r = PStr s.
Proof.
split.
- destruct r; simpl; try discriminate.
  intros H. apply String.eqb_eq in H. by subst.
- intros ->. apply py_eq_refl.
Qed.

Lemma py_eq_none (r : pyval) : py_eq r PNone = true <-> r = PNone.
Proof. split; [by destruct r | by intros ->]. Qed.

Lemma py_eq_opt_str (r : pyval) (o : option string) :
py_eq r (opt_str o) = true <-> r = opt_str o.
Proof. destruct o; [apply py_eq_str | apply py_eq_none]. Qed.

Lemma mem_true (x : pyval) (l : list pyval) :
mem x l = true <-> exists y, In y l /\ py_eq x y = true.
Proof. unfold mem. apply existsb_exists. Qed.

Lemma set_eqb_same_members (a b : list pyval) :
set_eqb a b = true <-> same_members a b.
Proof.
unfold set_eqb, same_members.
rewrite andb_true_iff, !forallb_forall.
split; intros [H1 H2]; split; intros x Hx.
- by apply mem_true, H1.
- by apply mem_true, H2.
- by apply mem_true, H1.
- by apply mem_true, H2.
Qed.

Lemma same_members_refl (a : list pyval) : same_members a a.
Proof. split; intros x Hx; exists x; split; auto using py_eq_refl. Qed.

(** ** The comparison of one field, and of a list of fields *)

Lemma matches_comparable (d : gmap string pyval) (f : field) :
matches d f -> comparable d f.
Proof.
destruct f as [k v|k v]; simpl.
- intros (r & Hr & _). by exists r.
- intros (r & rs & vs & Hr & Hrs & Hvs & _). by exists r, rs, vs.
Qed.

Lemma matches_lookup (d d' : gmap string pyval) (f : field) :
d' !! field_key f = d !! field_key f -> matches d f -> matches d' f.
Proof. destruct f; simpl; intros ->; auto. Qed.

Lemma comparable_lookup (d d' : gmap string pyval) (f : field) :
d' !! field_key f = d !! field_key f -> comparable d f -> comparable d' f.
Proof. destruct f; simpl; intros ->; auto. Qed.

Lemma compare_matches (d : gmap string pyval) (ch : bool) (f : field) :
matches d f -> compare f (d, ch) = Ok (d, ch).
Proof.
destruct f as [k v|k v]; simpl.
- intros (r & Hr & Heq).
  unfold scalar_field, getitem, py_ne; simpl. by rewrite Hr; simpl; rewrite Heq.
- intros (r & rs & vs & Hr & Hrs & Hvs & Hsame).
  unfold set_field, getitem; simpl. rewrite Hr; simpl. rewrite Hrs; simpl.
  rewrite Hvs; simpl. apply set_eqb_same_members in Hsame. by rewrite Hsame.
Qed.

Lemma compare_differs (d : gmap string pyval) (ch : bool) (f : field) :
comparable d f -> ~ matches d f ->
compare f (d, ch) = Ok (<[field_key f := field_val f]> d, true).
Proof.
destruct f as [k v|k v]; simpl.
- intros [r Hr] Hn.
  unfold scalar_field, getitem, py_ne; simpl. rewrite Hr; simpl.
  destruct (py_eq r v) eqn:E; [|done].
  exfalso. apply Hn. by exists r.
- intros (r & rs & vs & Hr & Hrs & Hvs) Hn.
  unfold set_field, getitem; simpl. rewrite Hr; simpl. rewrite Hrs; simpl.
  rewrite Hvs; simpl.
  destruct (set_eqb rs vs) eqn:E; [|done].
  exfalso. apply Hn. exists r, rs, vs. by rewrite <- set_eqb_same_members.
Qed.

Lemma compare_inv (d d' : gmap string pyval) (ch ch' : bool) (f : field) :
compare f (d, ch) = Ok (d', ch') ->
comparable d f /\
((matches d f /\ d' = d /\ ch' = ch) \/
 (~ matches d f /\ d' = <[field_key f := field_val f]> d /\ ch' = true)).
Proof.
destruct f as [k v|k v]; simpl.
- unfold scalar_field, getitem, py_ne; simpl.
  destruct (d !! k) as [r|] eqn:Hr; simpl; [|done].
  destruct (py_eq r v) eqn:E; simpl; intros [= <- <-]; (split; [by exists r|]).
  + left. split; [by exists r|done].
  + right. split; [|done]. intros (r' & Hr' & E'). congruence.
- unfold set_field, getitem; simpl.
  destruct (d !! k) as [r|] eqn:Hr; simpl; [|done].
  destruct (py_set r) as [rs|] eqn:Hrs; simpl; [|done].
  destruct (py_set v) as [vs|] eqn:Hvs; simpl; [|done].
  destruct (set_eqb rs vs) eqn:E; simpl; intros [= <- <-];
    (split; [by exists r, rs, vs|]).
  + left. split; [|done]. exists r, rs, vs. by rewrite <- set_eqb_same_members.
  + right. split; [|done].
    intros (r' & rs' & vs' & Hr' & Hrs' & Hvs' & Hsame).
    apply set_eqb_same_members in Hsame. congruence.
Qed.

Lemma matches_after_set (d : gmap string pyval) (f : field) :
comparable d f -> matches (<[field_key f := field_val f]> d) f.
Proof.
destruct f as [k v|k v]; simpl.
- intros _. exists v. by rewrite lookup_insert_eq, py_eq_refl.
- intros (r & rs & vs & _ & _ & Hvs). exists v, vs, vs.
  rewrite lookup_insert_eq. auto using same_members_refl.
Qed.

Lemma compare_all_frame (fs : list field) (d d' : gmap string pyval) (ch ch' : bool)
  (k : string) :
compare_all fs (d, ch) = Ok (d', ch') -> k ∉ map field_key fs -> d' !! k = d !! k.
Proof.
revert d ch. induction fs as [|f fs IH]; simpl; intros d ch.
- by intros [= <- <-].
- destruct (compare f (d, ch)) as [[d1 ch1]|] eqn:E; simpl; [|done].
  intros Hrest Hk. apply not_elem_of_cons in Hk as [Hne Hk].
  rewrite (IH _ _ Hrest Hk).
  apply compare_inv in E as [_ [(_ & -> & _)|(_ & -> & _)]]; [done|].
  by rewrite lookup_insert_ne.
Qed.

Lemma compare_all_matches (fs : list field) (d : gmap string pyval) (ch : bool) :
Forall (matches d) fs -> compare_all fs (d, ch) = Ok (d, ch).
Proof.
induction 1 as [|f fs Hf _ IH]; simpl; [done|].
by rewrite (compare_matches _ _ _ Hf).
Qed.

Lemma compare_all_flag (fs : list field) (d d' : gmap string pyval) (ch' : bool) :
compare_all fs (d, true) = Ok (d', ch') -> ch' = true.
Proof.
revert d. induction fs as [|f fs IH]; simpl; intros d.
- by intros [= _ <-].
- destruct (compare f (d, true)) as [[d1 ch1]|] eqn:E; simpl; [|done].
  apply compare_inv in E as [_ [(_ & _ & ->)|(_ & _ & ->)]]; apply IH.
Qed.

Lemma compare_all_unchanged (fs : list field) (d d' : gmap string pyval) (ch : bool) :
compare_all fs (d, ch) = Ok (d', false) ->
d' = d /\ ch = false /\ Forall (matches d) fs.
Proof.
revert d ch. induction fs as [|f fs IH]; simpl; intros d ch.
- intros [= <- <-]. auto.
- destruct (compare f (d, ch)) as [[d1 ch1]|] eqn:E; simpl; [|done].
  intros Hrest.
  apply compare_inv in E as [_ [(Hm & -> & ->)|(_ & _ & ->)]].
  + apply IH in Hrest as (-> & -> & Hall). auto.
  + by apply compare_all_flag in Hrest.
Qed.

(** Once the comparisons have run, the resulting dict agrees with every
  field: comparing it again changes nothing. *)
Lemma compare_all_result (fs : list field) (d d' : gmap string pyval) (ch ch' : bool) :
NoDup (map field_key fs) ->
compare_all fs (d, ch) = Ok (d', ch') -> Forall (matches d') fs.
Proof.
revert d ch. induction fs as [|f fs IH]; simpl; intros d ch.
- by intros _ _.
- intros [Hk Hnd]%NoDup_cons.
  destruct (compare f (d, ch)) as [[d1 ch1]|] eqn:E; simpl; [|done].
  intros Hrest. constructor; [|by eapply IH].
  apply (matches_lookup d1); [by eapply compare_all_frame|].
  apply compare_inv in E as [Hc [(Hm & -> & _)|(_ & -> & _)]]; [done|].
  by apply matches_after_set.
Qed.

(** Exactly one field differs: it alone is overwritten. *)
Lemma compare_all_one (fs1 fs2 : list field) (f : field) (d : gmap string pyval)
  (ch : bool) :
NoDup (map field_key (fs1 ++ f :: fs2)) ->
Forall (matches d) fs1 -> comparable d f -> ~ matches d f -> Forall (matches d) fs2 ->
compare_all (fs1 ++ f :: fs2) (d, ch) = Ok (<[field_key f := field_val f]> d, true).
Proof.
intros Hnd H1 Hc Hn H2.
induction H1 as [|g fs1 Hg _ IH]; simpl in *.
- rewrite (compare_differs _ _ _ Hc Hn); simpl.
  apply NoDup_cons in Hnd as [Hk _].
  apply compare_all_matches.
  apply Forall_forall. intros g Hg.
  apply (matches_lookup d); [|by eapply Forall_forall in H2].
  apply lookup_insert_ne. intros Heq. apply Hk.
  rewrite Heq. by apply list_elem_of_fmap_2.
- apply NoDup_cons in Hnd as [_ Hnd].
  rewrite (compare_matches _ _ _ Hg); simpl. by apply IH.
Qed.

(** One field differs, the others agree: it alone is overwritten. *)
Lemma compare_all_only (fs : list field) (f : field) (d : gmap string pyval) (ch : bool) :
NoDup (map field_key fs) -> In f fs -> comparable d f -> ~ matches d f ->
(forall g, In g fs -> field_key g <> field_key f -> matches d g) ->
compare_all fs (d, ch) = Ok (<[field_key f := field_val f]> d, true).
Proof.
intros Hnd Hin Hc Hn Hothers.
destruct (in_split _ _ Hin) as (fs1 & fs2 & ->).
assert (Hk : forall g, In g (fs1 ++ fs2) -> field_key g <> field_key f).
{ rewrite map_app in Hnd. simpl in Hnd.
  apply NoDup_app in Hnd as (_ & H1 & [H2 _]%NoDup_cons).
  intros g [Hg|Hg]%in_app_iff Heq.
  - apply (H1 (field_key g)); [by apply list_elem_of_fmap_2, list_elem_of_In|].
    rewrite Heq. by left.
  - apply H2. rewrite <- Heq. by apply list_elem_of_fmap_2, list_elem_of_In. }
apply compare_all_one; try done.
- apply Forall_forall. intros g Hg%list_elem_of_In.
  apply Hothers; [|apply Hk]; apply in_app_iff; auto using in_cons.
- apply Forall_forall. intros g Hg%list_elem_of_In.
  apply Hothers; [|apply Hk]; apply in_app_iff; auto using in_cons.
Qed.

(** The comparisons raise no exception on a dict in which every field
  can be compared. *)
Lemma compare_all_total (fs : list field) (d : gmap string pyval) (ch : bool) :
NoDup (map field_key fs) -> Forall (comparable d) fs ->
exists st, compare_all fs (d, ch) = Ok st.
Proof.
revert d ch. induction fs as [|f fs IH]; simpl; intros d ch.
- intros _ _. by eexists.
- intros [Hk Hnd]%NoDup_cons [Hf Hall]%Forall_cons.
  assert (Hdec : exists d1 ch1, compare f (d, ch) = Ok (d1, ch1) /\
                                forall k, k ≠ field_key f -> d1 !! k = d !! k).
  { destruct f as [k v|k v]; simpl in *.
    - destruct Hf as [r Hr]. unfold scalar_field, getitem; simpl. rewrite Hr; simpl.
      destruct (py_ne r v); eexists _, _; split; try done.
      intros k' Hk'. by rewrite lookup_insert_ne.
    - destruct Hf as (r & rs & vs & Hr & Hrs & Hvs).
      unfold set_field, getitem; simpl. rewrite Hr; simpl. rewrite Hrs; simpl.
      rewrite Hvs; simpl.
      destruct (negb (set_eqb rs vs)); eexists _, _; split; try done.
      intros k' Hk'. by rewrite lookup_insert_ne. }
  destruct Hdec as (d1 & ch1 & -> & Hframe); simpl.
  apply IH; [done|].
  apply Forall_forall. intros g Hg.
  apply (comparable_lookup d); [|by eapply Forall_forall in Hall].
  apply Hframe. intros Heq. apply Hk. rewrite <- Heq. by apply list_elem_of_fmap_2.
Qed.

(** ** The comparisons of the two modules are the lists of fields *)

Arguments client_fields : simpl never.
Arguments job_fields : simpl never.

Lemma exc_bind_ok {A} (x : exc A) : exc_bind x Ok = x.
Proof. by destruct x. Qed.

Ltac step_chain :=
repeat match goal with
       | |- exc_bind ?x _ = exc_bind ?x _ => destruct x as [?|?]; simpl; [|reflexivity]
       end.

Lemma client_diff_fields (p : Client.params) (c : gmap string pyval) :
Client.diff p c =
(qv <- getitem c "quota" ;; q <- py_int qv ;;
 compare_all (client_fields p) (<["quota" := PInt q]> c, false))%exc.
Proof.
unfold Client.diff, client_fields. simpl. step_chain.
by rewrite exc_bind_ok.
Qed.

Lemma ref_field_scalar (k k' : string) (src : gmap string pyval) (v : pyval)
  (st : gmap string pyval * bool) :
src !! k' = Some v -> ref_field k src k' st = scalar_field k v st.
Proof. intros H. unfold ref_field, scalar_field, getitem. by rewrite H. Qed.

Lemma job_diff_fields (p : Job.params) (client job : gmap string pyval) (cid : pyval) :
client !! "id" = Some cid ->
Job.diff p client job = compare_all (job_fields p cid) (job, false).
Proof.
intros Hid. unfold Job.diff, job_fields. simpl.
destruct (scalar_field "backupLocation" _ _) as [st|]; simpl; [|done].
rewrite (ref_field_scalar _ _ _ _ _ Hid). step_chain.
by rewrite exc_bind_ok.
Qed.

Lemma client_keys_nodup (p : Client.params) : NoDup (map field_key (client_fields p)).
Proof. unfold client_fields; simpl. apply (bool_decide_unpack _). by vm_compute. Qed.

Lemma job_keys_nodup (p : Job.params) (cid : pyval) :
NoDup (map field_key (job_fields p cid)).
Proof. unfold job_fields; simpl. apply (bool_decide_unpack _). by vm_compute. Qed.

Lemma client_id_not_field (p : Client.params) : "id" ∉ map field_key (client_fields p).
Proof. unfold client_fields; simpl. apply (bool_decide_unpack _). by vm_compute. Qed.

Lemma job_id_not_field (p : Job.params) (cid : pyval) :
"id" ∉ map field_key (job_fields p cid).
Proof. unfold job_fields; simpl. apply (bool_decide_unpack _). by vm_compute. Qed.

(** What [Client.diff] returns: the dict with [quota] coerced and then
  compared field by field. *)
Lemma client_diff_inv (p : Client.params) (c c' : gmap string pyval) (ch : bool) :
Client.diff p c = Ok (c', ch) ->
exists qv q, c !! "quota" = Some qv /\ py_int qv = Ok q /\
  compare_all (client_fields p) (<["quota" := PInt q]> c, false) = Ok (c', ch).
Proof.
rewrite client_diff_fields. unfold getitem.
destruct (c !! "quota") as [qv|] eqn:Hq; cbn [exc_bind]; [|done].
destruct (py_int qv) as [q|] eqn:Hi; cbn [exc_bind]; [|done].
intros H. by exists qv, q.
Qed.

Lemma client_diff_id (p : Client.params) (c c' : gmap string pyval) (ch : bool) :
Client.diff p c = Ok (c', ch) -> c' !! "id" = c !! "id".
Proof.
intros (qv & q & _ & _ & H)%client_diff_inv.
rewrite (compare_all_frame _ _ _ _ _ "id" H (client_id_not_field p)).
by rewrite lookup_insert_ne.
Qed.

(** What [Job.diff] returns: the Client has an [id], and the dict has
  been compared field by field. *)
Lemma job_diff_inv (p : Job.params) (client job job' : gmap string pyval) (ch : bool) :
Job.diff p client job = Ok (job', ch) ->
exists cid, client !! "id" = Some cid /\
  compare_all (job_fields p cid) (job, false) = Ok (job', ch).
Proof.
destruct (client !! "id") as [cid|] eqn:Hid.
- rewrite (job_diff_fields _ _ _ _ Hid). by exists cid.
- unfold Job.diff.
  destruct (scalar_field "backupLocation" _ _) as [st|]; simpl; [|done].
  unfold ref_field, getitem. rewrite Hid.
  by destruct (st.1 !! "client").
Qed.

Lemma job_diff_id (p : Job.params) (client job job' : gmap string pyval) (ch : bool) :
Job.diff p client job = Ok (job', ch) -> job' !! "id" = job !! "id".
Proof.
intros (cid & _ & H)%job_diff_inv.
apply (compare_all_frame _ _ _ _ _ "id" H (job_id_not_field p cid)).
Qed.

(** The comparisons of a Client raise nothing when its quota reads as
  an integer and every field can be compared; likewise for a Job once
  the Client has an [id]. *)
Lemma client_diff_total (p : Client.params) (c : gmap string pyval) (qv : pyval) (q : Z) :
c !! "quota" = Some qv -> py_int qv = Ok q ->
Forall (comparable c) (client_fields p) ->
exists st, Client.diff p c = Ok st.
Proof.
intros Hq Hi Hall. rewrite client_diff_fields. unfold getitem.
rewrite Hq; cbn [exc_bind]. rewrite Hi; cbn [exc_bind].
apply compare_all_total; [apply client_keys_nodup|].
apply Forall_forall. intros f Hf.
destruct (decide (field_key f = "quota")) as [Hk|Hk].
- unfold client_fields in Hf.
  repeat (apply elem_of_cons in Hf as [->|Hf]; [try discriminate Hk|]);
    [|by apply elem_of_nil in Hf].
  simpl. by rewrite lookup_insert_eq.
- apply (comparable_lookup c); [by rewrite lookup_insert_ne|].
  by apply (proj1 (Forall_forall _ _) Hall).
Qed.

Lemma job_diff_total (p : Job.params) (client job : gmap string pyval) (cid : pyval) :
client !! "id" = Some cid ->
Forall (comparable job) (job_fields p cid) ->
exists st, Job.diff p client job = Ok st.
Proof.
intros Hid Hall. rewrite (job_diff_fields _ _ _ _ Hid).
apply compare_all_total; [apply job_keys_nodup|done].
Qed.

(** ** The runs, case by case *)

Lemma lookup_run (srv : server) (k : kind) (name : string) (log : list request) :
((clients <- requests_get srv k name ;;
  if Nat.eqb (length clients) 1 then
    c <- lift (index clients 0) ;; ret (Some c)
  else if Nat.ltb 0 (length clients) then
    lift (scan_name name clients)
  else ret None)%run) log
= (log ++ [Get k name], completion_of (locate name (on_get srv k name))).
Proof.
unfold bind, requests_get, locate; simpl.
destruct (Nat.eqb _ 1).
- unfold lift. by destruct (index _ 0).
- destruct (Nat.ltb 0 _); [|done]. unfold lift. by destruct (scan_name _ _).
Qed.

Ltac enter_run Hs :=
unfold Client.run, Client.run_module, Job.run, Job.run_module; rewrite Hs;
unfold Client.get_client_by_name, Job.get_client_by_name, Job.get_job_by_name.

Lemma client_run_create (srv : server) (p : Client.params) :
Client.state p = present ->
locate (Client.name p) (on_get srv Clients (Client.name p)) = Ok None ->
Client.run srv p =
([Get Clients (Client.name p); Post Clients (Client.new_client p)],
 client_created (on_post srv Clients (Client.new_client p))).
Proof.
intros Hs Hl. enter_run Hs.
unfold bind at 1 2. rewrite lookup_run, Hl. simpl.
unfold client_created, Client.create_client, bind, requests_post, lift, ret; simpl.
destruct (resp_json _ !! "id") as [v|]; simpl; [|done].
destruct (py_int v) as [i|]; simpl; [|done].
by destruct (Z.eqb i 0).
Qed.

Lemma client_run_noop (srv : server) (p : Client.params) (c c' : gmap string pyval) :
Client.state p = present ->
locate (Client.name p) (on_get srv Clients (Client.name p)) = Ok (Some c) ->
Client.diff p c = Ok (c', false) ->
Client.run srv p = ([Get Clients (Client.name p)], ExitJson unchanged).
Proof.
intros Hs Hl Hd. enter_run Hs.
unfold bind at 1 2. rewrite lookup_run, Hl. simpl.
unfold bind, lift. by rewrite Hd.
Qed.

Lemma client_run_update (srv : server) (p : Client.params) (c c' : gmap string pyval)
  (i : pyval) :
Client.state p = present ->
locate (Client.name p) (on_get srv Clients (Client.name p)) = Ok (Some c) ->
Client.diff p c = Ok (c', true) ->
c' !! "id" = Some i ->
Client.run srv p =
([Get Clients (Client.name p); Put Clients i c'],
 updated "Client update failed" (on_put srv Clients i c')).
Proof.
intros Hs Hl Hd Hi. enter_run Hs.
unfold bind at 1 2. rewrite lookup_run, Hl. simpl.
unfold bind at 1. unfold lift at 1. rewrite Hd. simpl.
unfold updated, Client.update_client, bind, requests_put, lift, ret, getitem; simpl.
rewrite Hi; simpl.
destruct (resp_json _ !! "id") as [[| | z | |]|]; simpl; try done.
by destruct (Z.eqb z 0).
Qed.

Lemma client_run_absent_missing (srv : server) (p : Client.params) :
Client.state p = absent ->
locate (Client.name p) (on_get srv Clients (Client.name p)) = Ok None ->
Client.run srv p = ([Get Clients (Client.name p)], ExitJson unchanged).
Proof.
intros Hs Hl. enter_run Hs.
unfold bind at 1 2. by rewrite lookup_run, Hl.
Qed.

Lemma client_run_delete (srv : server) (p : Client.params) (c : gmap string pyval)
  (i : pyval) :
Client.state p = absent ->
locate (Client.name p) (on_get srv Clients (Client.name p)) = Ok (Some c) ->
c !! "id" = Some i ->
Client.run srv p =
([Get Clients (Client.name p); Delete Clients i],
 deleted "Client deletion failed" (on_delete srv Clients i)).
Proof.
intros Hs Hl Hi. enter_run Hs.
unfold bind at 1 2. rewrite lookup_run, Hl. simpl.
unfold deleted, Client.delete_client, bind, requests_delete, lift, ret, getitem; simpl.
rewrite Hi; simpl.
by destruct (resp_ok _).
Qed.

Lemma job_run_no_client (srv : server) (p : Job.params) :
Job.state p = present ->
locate (Job.client_name p) (on_get srv Clients (Job.client_name p)) = Ok None ->
Job.run srv p =
([Get Clients (Job.client_name p)],
 FailJson "Play failed" (failure (ObjDict (Job.client_not_found (Job.client_name p))))).
Proof.
intros Hs Hl. enter_run Hs.
unfold bind at 1 2. by rewrite lookup_run, Hl.
Qed.

Lemma job_run_create (srv : server) (p : Job.params) (client j : gmap string pyval) :
Job.state p = present ->
locate (Job.client_name p) (on_get srv Clients (Job.client_name p)) = Ok (Some client) ->
locate (Job.name p) (on_get srv Jobs (Job.name p)) = Ok None ->
Job.new_job p client = Ok j ->
Job.run srv p =
([Get Clients (Job.client_name p); Get Jobs (Job.name p); Post Jobs j],
 job_created (on_post srv Jobs j)).
Proof.
intros Hs Hc Hl Hj. enter_run Hs.
unfold bind at 1 2. rewrite lookup_run, Hc. simpl.
unfold bind at 1 2. unfold ret at 1. rewrite lookup_run, Hl. simpl.
unfold bind at 1. unfold lift at 1. rewrite Hj. simpl.
unfold job_created, Job.create_job, bind, requests_post, lift, ret; simpl.
destruct (resp_json _ !! "id") as [v|]; simpl; [|done].
destruct (py_int v) as [i|]; simpl; [|done].
by destruct (Z.eqb i 0).
Qed.

Lemma job_run_noop (srv : server) (p : Job.params) (client job job' : gmap string pyval) :
Job.state p = present ->
locate (Job.client_name p) (on_get srv Clients (Job.client_name p)) = Ok (Some client) ->
locate (Job.name p) (on_get srv Jobs (Job.name p)) = Ok (Some job) ->
Job.diff p client job = Ok (job', false) ->
Job.run srv p =
([Get Clients (Job.client_name p); Get Jobs (Job.name p)], ExitJson unchanged).
Proof.
intros Hs Hc Hl Hd. enter_run Hs.
unfold bind at 1 2. rewrite lookup_run, Hc. simpl.
unfold bind at 1 2. unfold ret at 1. rewrite lookup_run, Hl. simpl.
unfold bind, lift. by rewrite Hd.
Qed.

Lemma job_run_update (srv : server) (p : Job.params) (client job job' : gmap string pyval)
  (i : pyval) :
Job.state p = present ->
locate (Job.client_name p) (on_get srv Clients (Job.client_name p)) = Ok (Some client) ->
locate (Job.name p) (on_get srv Jobs (Job.name p)) = Ok (Some job) ->
Job.diff p client job = Ok (job', true) ->
job' !! "id" = Some i ->
Job.run srv p =
([Get Clients (Job.client_name p); Get Jobs (Job.name p); Put Jobs i job'],
 updated "Job update failed" (on_put srv Jobs i job')).
Proof.
intros Hs Hc Hl Hd Hi. enter_run Hs.
unfold bind at 1 2. rewrite lookup_run, Hc. simpl.
unfold bind at 1 2. unfold ret at 1. rewrite lookup_run, Hl. simpl.
unfold bind at 1. unfold lift at 1. rewrite Hd. simpl.
unfold updated, Job.update_job, bind, requests_put, lift, ret, getitem; simpl.
rewrite Hi; simpl.
destruct (resp_json _ !! "id") as [[| | z | |]|]; simpl; try done.
by destruct (Z.eqb z 0).
Qed.

Lemma job_run_absent_missing (srv : server) (p : Job.params) :
Job.state p = absent ->
locate (Job.name p) (on_get srv Jobs (Job.name p)) = Ok None ->
Job.run srv p = ([Get Jobs (Job.name p)], ExitJson unchanged).
Proof.
intros Hs Hl. enter_run Hs.
unfold bind at 1 2. by rewrite lookup_run, Hl.
Qed.

Lemma job_run_delete (srv : server) (p : Job.params) (job : gmap string pyval)
  (i : pyval) :
Job.state p = absent ->
locate (Job.name p) (on_get srv Jobs (Job.name p)) = Ok (Some job) ->
job !! "id" = Some i ->
Job.run srv p =
([Get Jobs (Job.name p); Delete Jobs i],
 deleted "Job deletion failed" (on_delete srv Jobs i)).
Proof.
intros Hs Hl Hi. enter_run Hs.
unfold bind at 1 2. rewrite lookup_run, Hl. simpl.
unfold deleted, Job.delete_job, bind, requests_delete, lift, ret, getitem; simpl.
rewrite Hi; simpl.
by destruct (resp_ok _).
Qed.

(** ** Lookup by name *)

Lemma has_name_eq (name : string) (c : gmap string pyval) :
has_name name c = true <-> c !! "name" = Some (PStr name).
Proof.
unfold has_name. destruct (c !! "name") as [n|]; [|done].
rewrite py_eq_str. split; congruence.
Qed.

Lemma scan_name_find (name : string) (l : list (gmap string pyval)) :
Forall (fun c => is_Some (c !! "name")) l ->
scan_name name l = Ok (find (has_name name) l).
Proof.
induction 1 as [|c l [n Hn] _ IH]; simpl; [done|].
unfold getitem, has_name. rewrite Hn; simpl.
by destruct (py_eq n (PStr name)).
Qed.

Lemma locate_one (name : string) (c : gmap string pyval) :
locate name [c] = Ok (Some c).
Proof. reflexivity. Qed.

Lemma locate_nil (name : string) : locate name [] = Ok None.
Proof. reflexivity. Qed.

Lemma locate_many (name : string) (l : list (gmap string pyval)) :
(1 < length l)%nat -> locate name l = scan_name name l.
Proof.
intros H. unfold locate.
destruct (Nat.eqb_spec (length l) 1) as [E|_]; [lia|].
destruct (Nat.ltb_spec 0 (length l)); [done|lia].
Qed.

(** C3. The three lookups ([get_client_by_name] of both modules and
  [get_job_by_name]) make one listing call and then: return the only
  resource listed when there is exactly one; return nothing when
  none is listed; and, when several are listed (each with a name),
  return the first one whose name is exactly the queried string, or
  nothing when there is none. *)
Theorem find_by_name_policy (srv : server) (name : string) (k : kind)
  (lookup : server -> string -> M (option (gmap string pyval))) :
In (k, lookup) [ (Clients, Client.get_client_by_name);
                 (Clients, Job.get_client_by_name);
                 (Jobs, Job.get_job_by_name) ] ->
let l := on_get srv k name in
(forall c, l = [c] -> lookup srv name [] = ([Get k name], Normal (Some c))) /\
(l = [] -> lookup srv name [] = ([Get k name], Normal None)) /\
((1 < length l)%nat -> Forall (fun c => is_Some (c !! "name")) l ->
 lookup srv name [] = ([Get k name], Normal (find (has_name name) l))) /\
(forall c, has_name name c = true <-> c !! "name" = Some (PStr name)).
Proof.
intros Hin l.
assert (Hrun : lookup srv name [] = ([Get k name], completion_of (locate name l))).
{ destruct Hin as [[= <- <-]|[[= <- <-]|[[= <- <-]|[]]]];
    unfold Client.get_client_by_name, Job.get_client_by_name, Job.get_job_by_name;
    by rewrite lookup_run. }
rewrite Hrun. repeat split.
- intros c ->. by rewrite locate_one.
- intros ->. by rewrite locate_nil.
- intros Hlen Hall. by rewrite locate_many, scan_name_find.
- by apply has_name_eq.
- by apply has_name_eq.
Qed.

Lemma find_by_name_policy_witness :
Job.get_client_by_name (fixed_server [name10_remote; name1_remote] [] answer_error)
  "Name1" []
= ([Get Clients "Name1"], Normal (Some name1_remote)).
Proof.
refine (proj1 (proj2 (proj2
          (find_by_name_policy (fixed_server [name10_remote; name1_remote] [] answer_error)
             "Name1" Clients Job.get_client_by_name _))) _ _).
- right. left. reflexivity.
- simpl. lia.
- repeat constructor; by eexists.
Defined.

(** ** How a run ends after its write *)

Lemma client_created_reports (resp : response) : reports_write (client_created resp).
Proof.
unfold client_created.
destruct (resp_json resp !! "id") as [v|]; [|by split; intros; simplify_eq].
destruct (py_int v) as [i|]; [|by split].
destruct (Z.eqb i 0); split; intros; by simplify_eq.
Qed.

Lemma job_created_reports (resp : response) : reports_write (job_created resp).
Proof.
unfold job_created.
destruct (resp_json resp !! "id") as [v|]; [|by split; intros; simplify_eq].
destruct (py_int v) as [i|]; [|by split].
destruct (Z.eqb i 0); split; intros; by simplify_eq.
Qed.

Lemma updated_reports (msg : string) (resp : response) : reports_write (updated msg resp).
Proof.
unfold updated.
destruct (resp_json resp !! "id") as [[| | z | |]|];
  try (by split; intros; simplify_eq).
destruct (Z.eqb z 0); split; intros; by simplify_eq.
Qed.

Lemma deleted_reports (msg : string) (resp : response) : reports_write (deleted msg resp).
Proof. unfold deleted. destruct (resp_ok resp); split; intros; by simplify_eq. Qed.

Lemma client_created_ok (resp : response) (v : pyval) (i : Z) :
resp_json resp !! "id" = Some v -> py_int v = Ok i -> i <> 0 ->
client_created resp = ExitJson (success i).
Proof.
intros Hv Hi Hz. unfold client_created. rewrite Hv, Hi.
by destruct (Z.eqb_spec i 0).
Qed.

Lemma job_created_ok (resp : response) (v : pyval) (i : Z) :
resp_json resp !! "id" = Some v -> py_int v = Ok i -> i <> 0 ->
job_created resp = ExitJson (success i).
Proof.
intros Hv Hi Hz. unfold job_created. rewrite Hv, Hi.
by destruct (Z.eqb_spec i 0).
Qed.

Lemma updated_ok (msg : string) (resp : response) (i : Z) :
resp_json resp !! "id" = Some (PInt i) -> i <> 0 ->
updated msg resp = ExitJson (success i).
Proof.
intros Hv Hz. unfold updated. rewrite Hv.
by destruct (Z.eqb_spec i 0).
Qed.

(** ** The state machine *)

(** C1, as amended.  Each row of the table issues the write it names,
  and no other; [changed=true] is reported when that write goes
  through (a create answered with an [id] that reads as a non-zero
  integer, an update answered with a non-zero integer [id], a delete
  answered with a success status), and a run ended by [fail_json]
  carries [changed=false].  For a Job the rows for [present] apply
  once the Client reference is resolved. *)
Theorem reconcile_state_machine (srv : server) :
(forall p : Client.params,
   let found := locate (Client.name p) (on_get srv Clients (Client.name p)) in
   let run := Client.run srv p in
   (Client.state p = present -> found = Ok None ->
    writes run.1 = [Post Clients (Client.new_client p)] /\
    reports_write run.2 /\
    (forall v i, resp_json (on_post srv Clients (Client.new_client p)) !! "id" = Some v ->
                 py_int v = Ok i -> i <> 0 -> run.2 = ExitJson (success i))) /\
   (forall c c', Client.state p = present -> found = Ok (Some c) ->
    Client.diff p c = Ok (c', false) ->
    writes run.1 = [] /\ run.2 = ExitJson unchanged) /\
   (forall c c' id, Client.state p = present -> found = Ok (Some c) ->
    Client.diff p c = Ok (c', true) -> c !! "id" = Some id ->
    writes run.1 = [Put Clients id c'] /\
    reports_write run.2 /\
    (forall i, resp_json (on_put srv Clients id c') !! "id" = Some (PInt i) ->
               i <> 0 -> run.2 = ExitJson (success i))) /\
   (Client.state p = absent -> found = Ok None ->
    writes run.1 = [] /\ run.2 = ExitJson unchanged) /\
   (forall c id, Client.state p = absent -> found = Ok (Some c) -> c !! "id" = Some id ->
    writes run.1 = [Delete Clients id] /\
    reports_write run.2 /\
    (resp_ok (on_delete srv Clients id) = true ->
     run.2 = ExitJson {| r_changed := true; r_id := None; r_api_result := None |})))
/\
(forall p : Job.params,
   let resolved :=
     locate (Job.client_name p) (on_get srv Clients (Job.client_name p)) in
   let found := locate (Job.name p) (on_get srv Jobs (Job.name p)) in
   let run := Job.run srv p in
   (forall client j, Job.state p = present -> resolved = Ok (Some client) ->
    found = Ok None -> Job.new_job p client = Ok j ->
    writes run.1 = [Post Jobs j] /\
    reports_write run.2 /\
    (forall v i, resp_json (on_post srv Jobs j) !! "id" = Some v ->
                 py_int v = Ok i -> i <> 0 -> run.2 = ExitJson (success i))) /\
   (forall client job job', Job.state p = present -> resolved = Ok (Some client) ->
    found = Ok (Some job) -> Job.diff p client job = Ok (job', false) ->
    writes run.1 = [] /\ run.2 = ExitJson unchanged) /\
   (forall client job job' id, Job.state p = present -> resolved = Ok (Some client) ->
    found = Ok (Some job) -> Job.diff p client job = Ok (job', true) ->
    job !! "id" = Some id ->
    writes run.1 = [Put Jobs id job'] /\
    reports_write run.2 /\
    (forall i, resp_json (on_put srv Jobs id job') !! "id" = Some (PInt i) ->
               i <> 0 -> run.2 = ExitJson (success i))) /\
   (Job.state p = absent -> found = Ok None ->
    writes run.1 = [] /\ run.2 = ExitJson unchanged) /\
   (forall job id, Job.state p = absent -> found = Ok (Some job) -> job !! "id" = Some id ->
    writes run.1 = [Delete Jobs id] /\
    reports_write run.2 /\
    (resp_ok (on_delete srv Jobs id) = true ->
     run.2 = ExitJson {| r_changed := true; r_id := None; r_api_result := None |}))).
Proof.
split; intros p; cbv zeta; repeat apply conj.
- intros Hs Hl. rewrite (client_run_create _ _ Hs Hl); simpl.
  split; [done|]. split; [apply client_created_reports|].
  intros v i. apply client_created_ok.
- intros c c' Hs Hl Hd. by rewrite (client_run_noop _ _ _ _ Hs Hl Hd).
- intros c c' id Hs Hl Hd Hid.
  rewrite <- (client_diff_id _ _ _ _ Hd) in Hid.
  rewrite (client_run_update _ _ _ _ _ Hs Hl Hd Hid); simpl.
  split; [done|]. split; [apply updated_reports|].
  intros i. apply updated_ok.
- intros Hs Hl. by rewrite (client_run_absent_missing _ _ Hs Hl).
- intros c id Hs Hl Hid. rewrite (client_run_delete _ _ _ _ Hs Hl Hid); simpl.
  split; [done|]. split; [apply deleted_reports|].
  intros Hok. unfold deleted. by rewrite Hok.
- intros client j Hs Hc Hl Hj. rewrite (job_run_create _ _ _ _ Hs Hc Hl Hj); simpl.
  split; [done|]. split; [apply job_created_reports|].
  intros v i. apply job_created_ok.
- intros client job job' Hs Hc Hl Hd. by rewrite (job_run_noop _ _ _ _ _ Hs Hc Hl Hd).
- intros client job job' id Hs Hc Hl Hd Hid.
  rewrite <- (job_diff_id _ _ _ _ _ Hd) in Hid.
  rewrite (job_run_update _ _ _ _ _ _ Hs Hc Hl Hd Hid); simpl.
  split; [done|]. split; [apply updated_reports|].
  intros i. apply updated_ok.
- intros Hs Hl. by rewrite (job_run_absent_missing _ _ Hs Hl).
- intros job id Hs Hl Hid. rewrite (job_run_delete _ _ _ _ Hs Hl Hid); simpl.
  split; [done|]. split; [apply deleted_reports|].
  intros Hok. unfold deleted. by rewrite Hok.
Qed.

Lemma reconcile_state_machine_witness :
writes (Client.run (fixed_server [name1_remote] [] (answer_id (PInt 1))) name1_absent).1
  = [Delete Clients (PInt 1)] /\
(Client.run (fixed_server [name1_remote] [] (answer_id (PInt 1))) name1_absent).2
  = ExitJson {| r_changed := true; r_id := None; r_api_result := None |}.
Proof.
pose proof (proj1 (reconcile_state_machine
                     (fixed_server [name1_remote] [] (answer_id (PInt 1)))) name1_absent)
  as (_ & _ & _ & _ & H).
destruct (H name1_remote (PInt 1) eq_refl eq_refl eq_refl) as (Hw & _ & Hok).
split; [exact Hw | exact (Hok eq_refl)].
Defined.

(** C1 as stated does not hold: with [state=present], the Client
  resolved and no Job under the name, a create that the service
  answers with an error body ends in a failure carrying
  [changed=false]. *)
Lemma job_create_refused_reports_unchanged :
Job.state job1_params = present /\
locate "Name1" (on_get (fixed_server [name1_remote] [] answer_error) Clients "Name1")
  = Ok (Some name1_remote) /\
locate "job1" (on_get (fixed_server [name1_remote] [] answer_error) Jobs "job1")
  = Ok None /\
exists j,
  Job.new_job job1_params name1_remote = Ok j /\
  Job.run (fixed_server [name1_remote] [] answer_error) job1_params
  = ([Get Clients "Name1"; Get Jobs "job1"; Post Jobs j],
     FailJson "Job creation failed"
       {| r_changed := false; r_id := None;
          r_api_result := Some (ObjDict (resp_json answer_error)) |}).
Proof.
split; [reflexivity|]. split; [reflexivity|]. split; [reflexivity|].
eexists. split; reflexivity.
Qed.

(** ** The diff is empty exactly on a resource that satisfies the parameters *)

Lemma compare_all_lookup (fs : list field) (d d' : gmap string pyval) (ch ch' : bool)
  (k : string) :
compare_all fs (d, ch) = Ok (d', ch') ->
d' !! k = d !! k \/
exists f, f ∈ fs /\ field_key f = k /\ d' !! k = Some (field_val f).
Proof.
revert d ch. induction fs as [|f fs IH]; simpl; intros d ch.
- intros [= <- <-]. by left.
- destruct (compare f (d, ch)) as [[d1 ch1]|] eqn:E; simpl; [|done].
  intros Hrest. destruct (IH _ _ Hrest) as [Hsame|(g & Hg & Hk & Hv)].
  + apply compare_inv in E as [_ [(_ & -> & _)|(_ & -> & _)]]; [by left|].
    destruct (decide (field_key f = k)) as [Heq|Hne].
    * right. exists f. split; [by left|]. split; [done|].
      by rewrite Hsame, <- Heq, lookup_insert_eq.
    * left. by rewrite Hsame, lookup_insert_ne.
  + right. exists g. split; [by right|done].
Qed.

Lemma py_set_ints (l : list Z) : py_set (ints l) = Ok (map PInt l).
Proof.
unfold ints; simpl.
assert (H : forallb hashable (map PInt l) = true) by (by induction l).
by rewrite H.
Qed.

Lemma py_set_strs (l : list string) : py_set (strs l) = Ok (map PStr l).
Proof.
unfold strs; simpl.
assert (H : forallb hashable (map PStr l) = true) by (by induction l).
by rewrite H.
Qed.

(** [py_eq] computes the equality of values. *)
Lemma py_eq_equal (a b : pyval) : py_eq a b = true <-> py_equal a b.
Proof.
revert b. induction a as [|x|x|x|xs IH] using pyval_ind; intros b.
- split.
  + destruct b; simpl; try discriminate. constructor.
  + by inversion 1.
- split.
  + destruct b as [|y|y| |]; simpl; try discriminate.
    * intros H. apply Bool.eqb_prop in H. subst. constructor.
    * intros H%Z.eqb_eq. subst. constructor.
  + inversion 1; subst; simpl; [by destruct x|apply Z.eqb_refl].
- split.
  + destruct b as [|y|y| |]; simpl; try discriminate.
    * intros H%Z.eqb_eq. subst. constructor.
    * intros H%Z.eqb_eq. subst. constructor.
  + inversion 1; subst; simpl; apply Z.eqb_refl.
- split.
  + destruct b; simpl; try discriminate.
    intros H%String.eqb_eq. subst. constructor.
  + inversion 1; subst; simpl. apply String.eqb_refl.
- split.
  + destruct b as [| | | |ys]; simpl; try discriminate.
    intros H. constructor. revert ys H.
    induction IH as [|x xs Hx _ IHxs]; intros [|y ys]; try discriminate.
    * constructor.
    * intros [H1 H2]%andb_true_iff. constructor; [by apply Hx|by apply IHxs].
  + inversion 1 as [| | | | | |xs' ys H2]; subst; simpl.
    revert ys H2 H. induction IH as [|x xs Hx _ IHxs]; intros ys H2 _;
      inversion H2 as [|? y ? ys' Hxy Hrest]; subst; [done|].
    apply andb_true_iff. split; [by apply Hx|].
    apply IHxs; [done|by constructor].
Qed.

Lemma same_elements_members (a b : list pyval) : same_elements a b <-> same_members a b.
Proof.
unfold same_elements, same_members.
split; intros [H1 H2]; split; intros x Hx.
- destruct (H1 x Hx) as (y & Hy & E). exists y. by rewrite py_eq_equal.
- destruct (H2 x Hx) as (y & Hy & E). exists y. by rewrite py_eq_equal.
- destruct (H1 x Hx) as (y & Hy & E). exists y. by rewrite <- py_eq_equal.
- destruct (H2 x Hx) as (y & Hy & E). exists y. by rewrite <- py_eq_equal.
Qed.

(** Agreement is what the comparisons of the code test. *)
Lemma agrees_matches (d : gmap string pyval) (f : field) : agrees d f <-> matches d f.
Proof.
destruct f as [k v|k v]; simpl.
- split; intros (r & Hr & E); exists r; split; try done; by apply py_eq_equal.
- split; intros (r & rs & vs & Hr & Hrs & Hvs & E); exists r, rs, vs;
    repeat (split; [done|]); by apply same_elements_members.
Qed.

Lemma client_agrees_unfold (p : Client.params) (c : gmap string pyval) :
client_agrees p c <->
exists qv q, c !! "quota" = Some qv /\ py_int qv = Ok q /\
             Forall (matches (<["quota" := PInt q]> c)) (client_fields p).
Proof.
unfold client_agrees.
split; intros (qv & q & Hq & Hi & Hall); exists qv, q;
  (split; [done|]); (split; [done|]);
  eapply Forall_impl; try exact Hall; intros f; apply agrees_matches.
Qed.

Lemma job_agrees_unfold (p : Job.params) (client job : gmap string pyval) :
job_agrees p client job <->
exists cid, client !! "id" = Some cid /\ Forall (matches job) (job_fields p cid).
Proof.
unfold job_agrees.
split; intros (cid & Hid & Hall); exists cid; (split; [done|]);
  eapply Forall_impl; try exact Hall; intros f; apply agrees_matches.
Qed.

Lemma client_agrees_diff (p : Client.params) (c : gmap string pyval) :
client_agrees p c <-> exists c', Client.diff p c = Ok (c', false).
Proof.
rewrite client_agrees_unfold. split.
- intros (qv & q & Hq & Hi & Hall). exists (<["quota" := PInt q]> c).
  rewrite client_diff_fields. unfold getitem. rewrite Hq; cbn [exc_bind].
  rewrite Hi; cbn [exc_bind]. by apply compare_all_matches.
- intros (c' & (qv & q & Hq & Hi & H)%client_diff_inv).
  apply compare_all_unchanged in H as (_ & _ & Hall). by exists qv, q.
Qed.

Lemma job_agrees_diff (p : Job.params) (client job : gmap string pyval) :
job_agrees p client job <-> exists job', Job.diff p client job = Ok (job', false).
Proof.
rewrite job_agrees_unfold. split.
- intros (cid & Hid & Hall). exists job.
  rewrite (job_diff_fields _ _ _ _ Hid). by apply compare_all_matches.
- intros (job' & (cid & Hid & H)%job_diff_inv).
  apply compare_all_unchanged in H as (_ & _ & Hall). by exists cid.
Qed.

(** The dict sent by an update satisfies the parameters. *)
Lemma client_diff_result_satisfies (p : Client.params) (c c' : gmap string pyval)
  (ch : bool) :
Client.diff p c = Ok (c', ch) -> client_agrees p c'.
Proof.
intros (qv & q & Hq & Hi & H)%client_diff_inv.
assert (Hq' : exists q', c' !! "quota" = Some (PInt q')).
{ destruct (compare_all_lookup _ _ _ _ _ "quota" H) as [Hsame|(f & Hf & Hk & Hv)].
  - exists q. by rewrite Hsame, lookup_insert_eq.
  - unfold client_fields in Hf. rewrite Hv.
    repeat (apply elem_of_cons in Hf as [->|Hf]; [simpl in Hk; try discriminate|]);
      [by eexists|by apply elem_of_nil in Hf]. }
destruct Hq' as [q' Hq']. apply client_agrees_unfold.
exists (PInt q'), q'. split; [done|]. split; [done|].
rewrite (insert_id _ _ _ Hq').
by apply (compare_all_result _ _ _ _ _ (client_keys_nodup p) H).
Qed.

Lemma job_diff_result_satisfies (p : Job.params) (client job job' : gmap string pyval)
  (ch : bool) :
Job.diff p client job = Ok (job', ch) -> job_agrees p client job'.
Proof.
intros (cid & Hid & H)%job_diff_inv. apply job_agrees_unfold.
exists cid. split; [done|].
by apply (compare_all_result _ _ _ _ _ (job_keys_nodup p cid) H).
Qed.

Ltac field_present :=
match goal with
| |- matches _ (Scalar _ ?v) =>
    exists v; split; [by simplify_map_eq | apply py_eq_refl]
| |- matches _ (SetOf _ (ints ?l)) =>
    exists (ints l), (map PInt l), (map PInt l);
    split; [by simplify_map_eq|];
    split; [apply py_set_ints|]; split; [apply py_set_ints|apply same_members_refl]
| |- matches _ (SetOf _ (strs ?l)) =>
    exists (strs l), (map PStr l), (map PStr l);
    split; [by simplify_map_eq|];
    split; [apply py_set_strs|]; split; [apply py_set_strs|apply same_members_refl]
end.

(** The dict sent by a create, stored under any [id], satisfies them too. *)
Lemma client_created_satisfies (p : Client.params) (id : pyval) :
client_agrees p (<["id" := id]> (Client.new_client p)).
Proof.
apply client_agrees_unfold.
exists (PInt (Client.quota p)), (Client.quota p).
split; [by unfold Client.new_client; simplify_map_eq|]. split; [done|].
unfold client_fields, Client.new_client.
repeat (apply Forall_cons; split; [field_present|]). apply Forall_nil_2.
Qed.

Lemma job_created_satisfies (p : Job.params) (client j : gmap string pyval) (id : pyval) :
Job.new_job p client = Ok j -> job_agrees p client (<["id" := id]> j).
Proof.
unfold Job.new_job, getitem.
destruct (client !! "id") as [cid|] eqn:Hid; simpl; [|done].
intros [= <-]. apply job_agrees_unfold. exists cid. split; [done|].
unfold job_fields.
repeat (apply Forall_cons; split; [field_present|]). apply Forall_nil_2.
Qed.

(** C2, as amended.  The comparisons leave the [changed] flag down
  exactly when the remote resource agrees with the parameters field
  by field, by equality of values for the scalar fields (those that
  may be null included: a null agrees with a null only), with the
  Client quota read as an integer, and by equality of sets for the
  set-valued fields; such a resource is reconciled with no write and
  [changed=false]; and a second run that finds what the first one
  sent (the updated dict, or the created one under its new [id]) is
  of that kind. *)
Theorem diff_empty_iff_satisfied :
(forall (p : Client.params) (c : gmap string pyval),
   ((exists c', Client.diff p c = Ok (c', false)) <-> client_agrees p c) /\
   (forall srv, Client.state p = present ->
      locate (Client.name p) (on_get srv Clients (Client.name p)) = Ok (Some c) ->
      client_agrees p c ->
      writes (Client.run srv p).1 = [] /\ (Client.run srv p).2 = ExitJson unchanged) /\
   (forall c' ch srv', Client.diff p c = Ok (c', ch) ->
      Client.state p = present ->
      locate (Client.name p) (on_get srv' Clients (Client.name p)) = Ok (Some c') ->
      writes (Client.run srv' p).1 = [] /\ (Client.run srv' p).2 = ExitJson unchanged) /\
   (forall id srv', Client.state p = present ->
      locate (Client.name p) (on_get srv' Clients (Client.name p))
        = Ok (Some (<["id" := id]> (Client.new_client p))) ->
      writes (Client.run srv' p).1 = [] /\ (Client.run srv' p).2 = ExitJson unchanged))
/\
(forall (p : Job.params) (client job : gmap string pyval),
   ((exists job', Job.diff p client job = Ok (job', false)) <-> job_agrees p client job) /\
   (forall srv, Job.state p = present ->
      locate (Job.client_name p) (on_get srv Clients (Job.client_name p)) = Ok (Some client) ->
      locate (Job.name p) (on_get srv Jobs (Job.name p)) = Ok (Some job) ->
      job_agrees p client job ->
      writes (Job.run srv p).1 = [] /\ (Job.run srv p).2 = ExitJson unchanged) /\
   (forall job' ch srv', Job.diff p client job = Ok (job', ch) ->
      Job.state p = present ->
      locate (Job.client_name p) (on_get srv' Clients (Job.client_name p)) = Ok (Some client) ->
      locate (Job.name p) (on_get srv' Jobs (Job.name p)) = Ok (Some job') ->
      writes (Job.run srv' p).1 = [] /\ (Job.run srv' p).2 = ExitJson unchanged) /\
   (forall j id srv', Job.new_job p client = Ok j ->
      Job.state p = present ->
      locate (Job.client_name p) (on_get srv' Clients (Job.client_name p)) = Ok (Some client) ->
      locate (Job.name p) (on_get srv' Jobs (Job.name p)) = Ok (Some (<["id" := id]> j)) ->
      writes (Job.run srv' p).1 = [] /\ (Job.run srv' p).2 = ExitJson unchanged)).
Proof.
assert (Hc : forall p c srv, Client.state p = present ->
           locate (Client.name p) (on_get srv Clients (Client.name p)) = Ok (Some c) ->
           client_agrees p c ->
           writes (Client.run srv p).1 = [] /\ (Client.run srv p).2 = ExitJson unchanged).
{ intros p c srv Hs Hl (c' & Hd)%client_agrees_diff.
  by rewrite (client_run_noop _ _ _ _ Hs Hl Hd). }
assert (Hj : forall p client job srv, Job.state p = present ->
           locate (Job.client_name p) (on_get srv Clients (Job.client_name p))
             = Ok (Some client) ->
           locate (Job.name p) (on_get srv Jobs (Job.name p)) = Ok (Some job) ->
           job_agrees p client job ->
           writes (Job.run srv p).1 = [] /\ (Job.run srv p).2 = ExitJson unchanged).
{ intros p client job srv Hs Hr Hl (job' & Hd)%job_agrees_diff.
  by rewrite (job_run_noop _ _ _ _ _ Hs Hr Hl Hd). }
split.
- intros p c. repeat apply conj.
  + by apply client_agrees_diff.
  + by apply client_agrees_diff.
  + intros srv. apply Hc.
  + intros c' ch srv' Hd Hs Hl. apply (Hc _ c'); [done..|].
    by eapply client_diff_result_satisfies.
  + intros id srv' Hs Hl. eapply Hc; [done..|]. apply client_created_satisfies.
- intros p client job. repeat apply conj.
  + by apply job_agrees_diff.
  + by apply job_agrees_diff.
  + intros srv. apply Hj.
  + intros job' ch srv' Hd Hs Hr Hl. apply (Hj _ client job'); [done..|].
    by eapply job_diff_result_satisfies.
  + intros j id srv' Hn Hs Hr Hl. eapply Hj; [done..|]. by apply job_created_satisfies.
Qed.

Ltac sample_matches :=
hnf;
first
  [ eexists; split; reflexivity
  | do 3 eexists;
    split; [reflexivity|]; split; [reflexivity|]; split; [reflexivity|];
    apply set_eqb_same_members; reflexivity ].

Ltac sample_others Hin Hne :=
simpl in Hin;
repeat (destruct Hin as [<-|Hin]; [first [by (exfalso; apply Hne) | sample_matches]|]);
destruct Hin.

Lemma diff_empty_iff_satisfied_witness :
writes (Job.run (fixed_server [name1_remote] [job1_remote] answer_error) job1_params).1 = [] /\
(Job.run (fixed_server [name1_remote] [job1_remote] answer_error) job1_params).2
  = ExitJson unchanged.
Proof.
pose proof (proj2 diff_empty_iff_satisfied job1_params name1_remote job1_remote)
  as (_ & Hrun & _).
apply (Hrun (fixed_server [name1_remote] [job1_remote] answer_error));
  [reflexivity..|].
apply job_agrees_unfold. exists (PInt 1). split; [reflexivity|].
unfold job_fields. repeat (apply List.Forall_cons; [sample_matches|]).
apply List.Forall_nil.
Defined.

(** C2 as stated does not hold: read with the comparison the
  specification gives for the fields that may be null, a stored Job
  whose [exclude] is the empty string satisfies parameters asking for
  a null, and yet the comparisons raise [changed] and the run sends
  an update. *)
Lemma empty_sentinel_satisfies_but_differs :
job_satisfies_spec job1_params name1_remote job1_empty_exclude /\
Job.diff job1_params name1_remote job1_empty_exclude
= Ok (<["exclude" := PNone]> job1_empty_exclude, true) /\
writes (Job.run (fixed_server [name1_remote] [job1_empty_exclude] (answer_id (PInt 7)))
          job1_params).1
= [Put Jobs (PInt 7) (<["exclude" := PNone]> job1_empty_exclude)].
Proof.
split; [|split; reflexivity].
exists (PInt 1). split; [reflexivity|].
unfold job_fields.
repeat (apply List.Forall_cons;
        [first [ left; apply agrees_matches; sample_matches
               | right; split; [reflexivity|];
                 split; [right; right; reflexivity|right; left; reflexivity] ]|]).
apply List.Forall_nil.
Qed.

(** ** The Client reference of a Job *)

(** C4, as amended.  A Job run with [state=present] whose Client name
  resolves to nothing stops after the Client lookup: no write is
  issued, and the run fails with [changed=false] and the error
  [{title: "Client name not found", detail: "Client name <name> not
  found"}], the name appearing as it is, without quotes. *)
Theorem job_client_reference_checked (srv : server) (p : Job.params) :
Job.state p = present ->
locate (Job.client_name p) (on_get srv Clients (Job.client_name p)) = Ok None ->
Job.run srv p =
([Get Clients (Job.client_name p)],
 FailJson "Play failed"
   {| r_changed := false; r_id := None;
      r_api_result :=
        Some (ObjDict
                (<["title" := PStr "Client name not found"]>
                 (<["detail" :=
                      PStr ("Client name " ++ Job.client_name p ++ " not found")%string]>
                  ∅))) |}) /\
writes (Job.run srv p).1 = [].
Proof.
intros Hs Hl. by rewrite (job_run_no_client _ _ Hs Hl).
Qed.

Lemma job_client_reference_checked_witness :
Job.run (fixed_server [] [job1_remote] answer_error) job1_params =
([Get Clients "Name1"],
 FailJson "Play failed"
   {| r_changed := false; r_id := None;
      r_api_result :=
        Some (ObjDict
                (<["title" := PStr "Client name not found"]>
                 (<["detail" := PStr "Client name Name1 not found"]> ∅))) |}) /\
writes (Job.run (fixed_server [] [job1_remote] answer_error) job1_params).1 = [].
Proof.
apply (job_client_reference_checked (fixed_server [] [job1_remote] answer_error)
         job1_params); reflexivity.
Defined.

(** C4 as stated does not hold: the detail does not put the Client
  name between single quotes. *)
Lemma client_not_found_detail_unquoted :
exists d,
  Job.run (fixed_server [] [job1_remote] answer_error) job1_params =
  ([Get Clients "Name1"],
   FailJson "Play failed"
     {| r_changed := false; r_id := None; r_api_result := Some (ObjDict d) |}) /\
  d !! "detail" = Some (PStr "Client name Name1 not found") /\
  d !! "detail" <> Some (PStr "Client name 'Name1' not found").
Proof.
exists (Job.client_not_found "Name1"). repeat split. discriminate.
Qed.

(** ** Creation *)

Lemma client_created_exit (resp : response) (r : result) :
client_created resp = ExitJson r <->
exists v i, resp_json resp !! "id" = Some v /\ py_int v = Ok i /\ i <> 0 /\
            r = success i.
Proof.
split.
- unfold client_created.
  destruct (resp_json resp !! "id") as [v|] eqn:Hv; [|done].
  destruct (py_int v) as [i|] eqn:Hi; [|done].
  destruct (Z.eqb_spec i 0) as [->|Hz]; [done|].
  intros [= <-]. by exists v, i.
- intros (v & i & Hv & Hi & Hz & ->). by eapply client_created_ok.
Qed.

Lemma job_created_exit (resp : response) (r : result) :
job_created resp = ExitJson r <->
exists v i, resp_json resp !! "id" = Some v /\ py_int v = Ok i /\ i <> 0 /\
            r = success i.
Proof.
split.
- unfold job_created.
  destruct (resp_json resp !! "id") as [v|] eqn:Hv; [|done].
  destruct (py_int v) as [i|] eqn:Hi; [|done].
  destruct (Z.eqb_spec i 0) as [->|Hz]; [done|].
  intros [= <-]. by exists v, i.
- intros (v & i & Hv & Hi & Hz & ->). by eapply job_created_ok.
Qed.

(** C7, as amended.  A create succeeds, with [changed=true] and the new
  [id], exactly when the response body has an [id] that [int()] reads
  as a non-zero integer; when the body of the answer to a Job create
  has no [id], the run fails with [changed=false], no [id], and that
  body attached as [api_result]. *)
Theorem create_outcome (srv : server) :
(forall p : Client.params,
   Client.state p = present ->
   locate (Client.name p) (on_get srv Clients (Client.name p)) = Ok None ->
   let body := resp_json (on_post srv Clients (Client.new_client p)) in
   forall r, (Client.run srv p).2 = ExitJson r <->
             exists v i, body !! "id" = Some v /\ py_int v = Ok i /\ i <> 0 /\
                         r = {| r_changed := true; r_id := Some i;
                                r_api_result := None |})
/\
(forall (p : Job.params) (client j : gmap string pyval),
   Job.state p = present ->
   locate (Job.client_name p) (on_get srv Clients (Job.client_name p)) = Ok (Some client) ->
   locate (Job.name p) (on_get srv Jobs (Job.name p)) = Ok None ->
   Job.new_job p client = Ok j ->
   let body := resp_json (on_post srv Jobs j) in
   (forall r, (Job.run srv p).2 = ExitJson r <->
              exists v i, body !! "id" = Some v /\ py_int v = Ok i /\ i <> 0 /\
                          r = {| r_changed := true; r_id := Some i;
                                 r_api_result := None |}) /\
   (body !! "id" = None ->
    (Job.run srv p).2 =
    FailJson "Job creation failed"
      {| r_changed := false; r_id := None; r_api_result := Some (ObjDict body) |})).
Proof.
split.
- intros p Hs Hl body r. rewrite (client_run_create _ _ Hs Hl); simpl.
  apply client_created_exit.
- intros p client j Hs Hc Hl Hj body.
  rewrite (job_run_create _ _ _ _ Hs Hc Hl Hj); simpl. split.
  + intros r. apply job_created_exit.
  + intros Hnone. unfold job_created. fold body. by rewrite Hnone.
Qed.

Lemma create_outcome_witness :
(Client.run (fixed_server [] [] (answer_id (PStr "12"))) name1_params).2
= ExitJson {| r_changed := true; r_id := Some 12; r_api_result := None |}.
Proof.
apply (proj1 (create_outcome (fixed_server [] [] (answer_id (PStr "12"))))
         name1_params eq_refl eq_refl). exists (PStr "12"), 12. repeat split. lia.
Defined.

(** C7 as stated does not hold: a response that contains an
  identifier, the integer 0, does not make the creation succeed. *)
Lemma create_answered_with_zero_id_fails :
resp_json (on_post (fixed_server [] [] (answer_id (PInt 0))) Clients
             (Client.new_client name1_params)) !! "id" = Some (PInt 0) /\
Client.run (fixed_server [] [] (answer_id (PInt 0))) name1_params =
([Get Clients "Name1"; Post Clients (Client.new_client name1_params)],
 FailJson "Client creation failed"
   {| r_changed := false; r_id := None; r_api_result := Some (ObjVal (PInt 0)) |}).
Proof. split; reflexivity. Qed.

(** ** Set-valued fields *)

Lemma same_members_ints (rs ds : list Z) :
same_members (map PInt rs) (map PInt ds) <-> (forall z, In z rs <-> In z ds).
Proof.
split.
- intros [H1 H2] z. split; intros Hz.
  + destruct (H1 (PInt z)) as (y & Hy & Heq); [by apply in_map|].
    apply in_map_iff in Hy as (z' & <- & Hz'). simpl in Heq.
    apply Z.eqb_eq in Heq. by subst.
  + destruct (H2 (PInt z)) as (y & Hy & Heq); [by apply in_map|].
    apply in_map_iff in Hy as (z' & <- & Hz'). simpl in Heq.
    apply Z.eqb_eq in Heq. by subst.
- intros H. split; intros x (z & <- & Hz)%in_map_iff; exists (PInt z);
    (split; [apply in_map; by apply H | apply py_eq_refl]).
Qed.

Lemma same_members_strs (rs ds : list string) :
same_members (map PStr rs) (map PStr ds) <-> (forall s, In s rs <-> In s ds).
Proof.
split.
- intros [H1 H2] s. split; intros Hs.
  + destruct (H1 (PStr s)) as (y & Hy & Heq); [by apply in_map|].
    apply in_map_iff in Hy as (s' & <- & Hs'). simpl in Heq.
    apply String.eqb_eq in Heq. by subst.
  + destruct (H2 (PStr s)) as (y & Hy & Heq); [by apply in_map|].
    apply in_map_iff in Hy as (s' & <- & Hs'). simpl in Heq.
    apply String.eqb_eq in Heq. by subst.
- intros H. split; intros x (s & <- & Hs)%in_map_iff; exists (PStr s);
    (split; [apply in_map; by apply H | apply py_eq_refl]).
Qed.

Lemma set_field_run (k : string) (r v : pyval) (rs vs : list pyval)
  (d : gmap string pyval) (ch : bool) :
d !! k = Some r -> py_set r = Ok rs -> py_set v = Ok vs ->
(same_members rs vs -> set_field k v (d, ch) = Ok (d, ch)) /\
(~ same_members rs vs -> set_field k v (d, ch) = Ok (<[k := v]> d, true)).
Proof.
intros Hr Hrs Hvs. unfold set_field, getitem; simpl.
rewrite Hr; simpl. rewrite Hrs; simpl. rewrite Hvs; simpl.
destruct (set_eqb rs vs) eqn:E; simpl.
- split; [done|]. intros Hn. by apply set_eqb_same_members in E.
- split; [|done]. intros Hs%set_eqb_same_members. congruence.
Qed.

Lemma field_of_key (fs : list field) (f g : field) :
NoDup (map field_key fs) -> In f fs -> In g fs -> field_key g = field_key f -> g = f.
Proof.
intros Hnd [a Ha]%list_elem_of_In%list_elem_of_lookup
       [b Hb]%list_elem_of_In%list_elem_of_lookup Hk.
assert (a = b); [|subst; congruence].
apply (NoDup_lookup _ a b (field_key f) Hnd); rewrite list_lookup_fmap.
- by rewrite Ha.
- by rewrite Hb; simpl; rewrite Hk.
Qed.

(** The other fields agreeing, the comparisons come down to the one of
  the field left. *)
Lemma compare_all_field (fs : list field) (f : field) (d : gmap string pyval) :
NoDup (map field_key fs) -> In f fs -> comparable d f ->
(forall g, In g fs -> field_key g <> field_key f -> matches d g) ->
(matches d f -> compare_all fs (d, false) = Ok (d, false)) /\
(~ matches d f ->
 compare_all fs (d, false) = Ok (<[field_key f := field_val f]> d, true)).
Proof.
intros Hnd Hin Hc Hothers. split.
- intros Hm. apply compare_all_matches, Forall_forall. intros g Hg%list_elem_of_In.
  destruct (decide (field_key g = field_key f)) as [Hk|Hk].
  + by rewrite (field_of_key _ _ _ Hnd Hin Hg Hk).
  + by apply Hothers.
- intros Hn. by apply compare_all_only.
Qed.

Lemma client_diff_field (p : Client.params) (c : gmap string pyval) (qv : pyval) (q : Z)
  (f : field) :
c !! "quota" = Some qv -> py_int qv = Ok q -> In f (client_fields p) ->
comparable (<["quota" := PInt q]> c) f ->
(forall g, In g (client_fields p) -> field_key g <> field_key f ->
           matches (<["quota" := PInt q]> c) g) ->
(matches (<["quota" := PInt q]> c) f ->
 Client.diff p c = Ok (<["quota" := PInt q]> c, false)) /\
(~ matches (<["quota" := PInt q]> c) f ->
 Client.diff p c = Ok (<[field_key f := field_val f]> (<["quota" := PInt q]> c), true)).
Proof.
intros Hq Hi Hin Hc Hothers.
rewrite client_diff_fields. unfold getitem. rewrite Hq; cbn [exc_bind].
rewrite Hi; cbn [exc_bind].
by apply compare_all_field; [apply client_keys_nodup|..].
Qed.

Lemma job_diff_field (p : Job.params) (client job : gmap string pyval) (cid : pyval)
  (f : field) :
client !! "id" = Some cid -> In f (job_fields p cid) -> comparable job f ->
(forall g, In g (job_fields p cid) -> field_key g <> field_key f -> matches job g) ->
(matches job f -> Job.diff p client job = Ok (job, false)) /\
(~ matches job f ->
 Job.diff p client job = Ok (<[field_key f := field_val f]> job, true)).
Proof.
intros Hid Hin Hc Hothers. rewrite (job_diff_fields _ _ _ _ Hid).
by apply compare_all_field; [apply job_keys_nodup|..].
Qed.

Lemma matches_ints (d : gmap string pyval) (k : string) (rs ds : list Z) :
d !! k = Some (ints rs) ->
comparable d (SetOf k (ints ds)) /\
(matches d (SetOf k (ints ds)) <-> (forall z, In z rs <-> In z ds)).
Proof.
intros Hr. split.
- exists (ints rs), (map PInt rs), (map PInt ds). auto using py_set_ints.
- rewrite <- same_members_ints. unfold matches. split.
  + intros (r & rs' & vs' & Hr' & Hrs & Hvs & Hsame).
    rewrite Hr in Hr'. injection Hr' as <-.
    rewrite py_set_ints in Hrs. rewrite py_set_ints in Hvs. by simplify_eq.
  + intros Hsame. exists (ints rs), (map PInt rs), (map PInt ds).
    auto using py_set_ints.
Qed.

Lemma matches_strs (d : gmap string pyval) (k : string) (rs ds : list string) :
d !! k = Some (strs rs) ->
comparable d (SetOf k (strs ds)) /\
(matches d (SetOf k (strs ds)) <-> (forall s, In s rs <-> In s ds)).
Proof.
intros Hr. split.
- exists (strs rs), (map PStr rs), (map PStr ds). auto using py_set_strs.
- rewrite <- same_members_strs. unfold matches. split.
  + intros (r & rs' & vs' & Hr' & Hrs & Hvs & Hsame).
    rewrite Hr in Hr'. injection Hr' as <-.
    rewrite py_set_strs in Hrs. rewrite py_set_strs in Hvs. by simplify_eq.
  + intros Hsame. exists (strs rs), (map PStr rs), (map PStr ds).
    auto using py_set_strs.
Qed.

(** C5. The comparisons of both modules treat [postScripts] and
  [preScripts], and those of a Job [notificationsTo], as sets: with
  the other fields agreeing, a fetched list with the same members as
  the desired one, whatever the order and the repetitions, leaves the
  dict and the [changed] flag untouched, and a fetched list whose
  members differ has the field overwritten and the flag raised; so
  [[2,1]] against [[1,2]] and [[1,2]] against [[1,2,2]] are left
  alone, and [[1,2]] against [[1,2,3]] is changed. *)
Theorem set_fields_compare_as_sets :
(forall (p : Client.params) (c : gmap string pyval) (qv : pyval) (q : Z)
        (k : string) (rs ds : list Z),
   c !! "quota" = Some qv -> py_int qv = Ok q ->
   In (k, ds) [("postScripts", Client.post_scripts p);
               ("preScripts", Client.pre_scripts p)] ->
   c !! k = Some (ints rs) ->
   let c0 := <["quota" := PInt q]> c in
   (forall f, In f (client_fields p) -> field_key f <> k -> matches c0 f) ->
   ((forall z, In z rs <-> In z ds) -> Client.diff p c = Ok (c0, false)) /\
   (~ (forall z, In z rs <-> In z ds) ->
    Client.diff p c = Ok (<[k := ints ds]> c0, true)) /\
   (rs = [2; 1] -> ds = [1; 2] -> Client.diff p c = Ok (c0, false)) /\
   (rs = [1; 2] -> ds = [1; 2; 2] -> Client.diff p c = Ok (c0, false)) /\
   (rs = [1; 2] -> ds = [1; 2; 3] ->
    Client.diff p c = Ok (<[k := ints [1; 2; 3]]> c0, true))) /\
(forall (p : Job.params) (client job : gmap string pyval) (cid : pyval)
        (k : string) (rs ds : list Z),
   client !! "id" = Some cid ->
   In (k, ds) [("postScripts", Job.post_scripts p);
               ("preScripts", Job.pre_scripts p)] ->
   job !! k = Some (ints rs) ->
   (forall f, In f (job_fields p cid) -> field_key f <> k -> matches job f) ->
   ((forall z, In z rs <-> In z ds) -> Job.diff p client job = Ok (job, false)) /\
   (~ (forall z, In z rs <-> In z ds) ->
    Job.diff p client job = Ok (<[k := ints ds]> job, true))) /\
(forall (p : Job.params) (client job : gmap string pyval) (cid : pyval)
        (rs : list string),
   client !! "id" = Some cid ->
   job !! "notificationsTo" = Some (strs rs) ->
   (forall f, In f (job_fields p cid) -> field_key f <> "notificationsTo" ->
              matches job f) ->
   ((forall s, In s rs <-> In s (Job.notifications_to p)) ->
    Job.diff p client job = Ok (job, false)) /\
   (~ (forall s, In s rs <-> In s (Job.notifications_to p)) ->
    Job.diff p client job
    = Ok (<["notificationsTo" := strs (Job.notifications_to p)]> job, true))).
Proof.
split; [|split].
- intros p c qv q k rs ds Hq Hi Hk Hr c0 Hothers.
  assert (Hin : In (SetOf k (ints ds)) (client_fields p)).
  { unfold client_fields. simpl in *.
    destruct Hk as [[= <- <-]|[[= <- <-]|[]]]; tauto. }
  assert (Hr0 : c0 !! k = Some (ints rs)).
  { unfold c0. rewrite lookup_insert_ne; [done|].
    simpl in Hk. destruct Hk as [[= <- <-]|[[= <- <-]|[]]]; discriminate. }
  destruct (matches_ints c0 k rs ds Hr0) as [Hc Hm].
  destruct (client_diff_field p c qv q _ Hq Hi Hin Hc Hothers) as [H1 H2].
  fold c0 in H1, H2. simpl in H2.
  assert (Hsame : (forall z, In z rs <-> In z ds) -> Client.diff p c = Ok (c0, false))
    by (intros H; by apply H1, Hm).
  assert (Hdiff : ~ (forall z, In z rs <-> In z ds) ->
                  Client.diff p c = Ok (<[k := ints ds]> c0, true))
    by (intros H; apply H2; by rewrite Hm).
  repeat apply conj; try done.
  + intros -> ->. apply Hsame. simpl. intros z. tauto.
  + intros -> ->. apply Hsame. simpl. intros z. tauto.
  + intros -> ->. apply Hdiff. simpl. intros H.
    assert (H3 : In 3 [1; 2]) by (apply H; simpl; auto).
    simpl in H3. destruct H3 as [?|[?|[]]]; lia.
- intros p client job cid k rs ds Hid Hk Hr Hothers.
  assert (Hin : In (SetOf k (ints ds)) (job_fields p cid)).
  { unfold job_fields. simpl in *.
    destruct Hk as [[= <- <-]|[[= <- <-]|[]]]; tauto. }
  destruct (matches_ints job k rs ds Hr) as [Hc Hm].
  destruct (job_diff_field p client job cid _ Hid Hin Hc Hothers) as [H1 H2].
  simpl in H2. split; intros H; [by apply H1, Hm|apply H2; by rewrite Hm].
- intros p client job cid rs Hid Hr Hothers.
  assert (Hin : In (SetOf "notificationsTo" (strs (Job.notifications_to p)))
                   (job_fields p cid))
    by (unfold job_fields; simpl; tauto).
  destruct (matches_strs job _ rs (Job.notifications_to p) Hr) as [Hc Hm].
  destruct (job_diff_field p client job cid _ Hid Hin Hc Hothers) as [H1 H2].
  simpl in H2. split; intros H; [by apply H1, Hm|apply H2; by rewrite Hm].
Qed.

Lemma set_fields_compare_as_sets_witness :
Client.diff name1_params name1_remote
= Ok (<["quota" := PInt 20000]> name1_remote, false).
Proof.
refine (proj1 (proj2 (proj2
          (proj1 set_fields_compare_as_sets name1_params name1_remote
             (PStr "20000") 20000 "preScripts" [2; 1] [1; 2]
             eq_refl eq_refl _ eq_refl _))) eq_refl eq_refl).
- right. left. reflexivity.
- intros f Hin Hne. unfold client_fields in Hin. sample_others Hin Hne.
Defined.

(** ** Fields that may be null *)

(** C6, as amended.  [exclude], [include] and [notificationsEmail] are
  compared like every scalar field, by equality of values: with the
  other fields agreeing, a fetched value equal to the desired one
  (null for null, the same string for a string) leaves the dict and
  the [changed] flag untouched, and any other fetched value, the
  empty string facing a desired null included, is overwritten with
  the desired one and raises the flag. *)
Theorem nullable_fields_compare_by_value (p : Job.params)
  (client job : gmap string pyval) (cid : pyval) (k : string) (o : option string)
  (r : pyval) :
client !! "id" = Some cid ->
In (k, o) [("exclude", Job.exclude p); ("include", Job.include p);
           ("notificationsEmail", Job.notifications_email p)] ->
job !! k = Some r ->
(forall f, In f (job_fields p cid) -> field_key f <> k -> matches job f) ->
(r = opt_str o -> Job.diff p client job = Ok (job, false)) /\
(r <> opt_str o -> Job.diff p client job = Ok (<[k := opt_str o]> job, true)) /\
(forall s, r = PStr s -> o = None ->
 Job.diff p client job = Ok (<[k := PNone]> job, true)).
Proof.
intros Hid Hk Hr Hothers.
assert (Hin : In (Scalar k (opt_str o)) (job_fields p cid)).
{ unfold job_fields. simpl in *.
  destruct Hk as [[= <- <-]|[[= <- <-]|[[= <- <-]|[]]]]; tauto. }
assert (Hc : comparable job (Scalar k (opt_str o))) by (by exists r).
assert (Hm : matches job (Scalar k (opt_str o)) <-> r = opt_str o).
{ simpl. split.
  - intros (r' & Hr' & E). apply py_eq_opt_str in E. congruence.
  - intros ->. exists (opt_str o). by rewrite py_eq_refl. }
destruct (job_diff_field p client job cid _ Hid Hin Hc Hothers) as [H1 H2].
simpl in H2. repeat apply conj.
- intros H. by apply H1, Hm.
- intros H. apply H2. by rewrite Hm.
- intros s -> ->. apply H2. by rewrite Hm.
Qed.

Lemma nullable_fields_compare_by_value_witness :
Job.diff job1_params name1_remote job1_empty_exclude
= Ok (<["exclude" := PNone]> job1_empty_exclude, true).
Proof.
refine (proj2 (proj2
          (nullable_fields_compare_by_value job1_params name1_remote job1_empty_exclude
             (PInt 1) "exclude" None (PStr EmptyString) eq_refl _ eq_refl _)) EmptyString eq_refl eq_refl).
- left. reflexivity.
- intros f Hin Hne. unfold job_fields in Hin. sample_others Hin Hne.
Defined.

(** C6 as stated does not hold: a stored Job that agrees with the
  parameters but for an [exclude] held as the empty string, facing a
  desired null, is updated. *)
Lemma empty_exclude_is_not_null :
Job.exclude job1_params = None /\
job1_empty_exclude !! "exclude" = Some (PStr EmptyString) /\
Job.run (fixed_server [name1_remote] [job1_empty_exclude] (answer_id (PInt 7)))
  job1_params =
([Get Clients "Name1"; Get Jobs "job1";
  Put Jobs (PInt 7) (<["exclude" := PNone]> job1_empty_exclude)],
 ExitJson {| r_changed := true; r_id := Some 7; r_api_result := None |}).
Proof. repeat split. Qed.

(** ** Updates *)

(** C8, as amended.  When exactly one scalar field differs, the dict
  sent by the update is the fetched one with that field replaced by
  the desired value, every other entry as fetched, except that a
  Client is sent with its [quota] read as an integer. *)
Theorem update_replaces_one_field (srv : server) :
(forall (p : Client.params) (c : gmap string pyval) (qv id : pyval) (q : Z)
        (k : string) (v r : pyval),
   Client.state p = present ->
   locate (Client.name p) (on_get srv Clients (Client.name p)) = Ok (Some c) ->
   c !! "id" = Some id -> c !! "quota" = Some qv -> py_int qv = Ok q ->
   let c0 := <["quota" := PInt q]> c in
   In (Scalar k v) (client_fields p) ->
   c0 !! k = Some r -> py_eq r v = false ->
   (forall f, In f (client_fields p) -> field_key f <> k -> matches c0 f) ->
   writes (Client.run srv p).1 = [Put Clients id (<[k := v]> c0)])
/\
(forall (p : Job.params) (client job : gmap string pyval) (cid id : pyval)
        (k : string) (v r : pyval),
   Job.state p = present ->
   locate (Job.client_name p) (on_get srv Clients (Job.client_name p)) = Ok (Some client) ->
   locate (Job.name p) (on_get srv Jobs (Job.name p)) = Ok (Some job) ->
   client !! "id" = Some cid -> job !! "id" = Some id ->
   In (Scalar k v) (job_fields p cid) ->
   job !! k = Some r -> py_eq r v = false ->
   (forall f, In f (job_fields p cid) -> field_key f <> k -> matches job f) ->
   writes (Job.run srv p).1 = [Put Jobs id (<[k := v]> job)]).
Proof.
split.
- intros p c qv id q k v r Hs Hl Hid Hq Hi c0 Hin Hr Hne Hothers.
  assert (Hd : Client.diff p c = Ok (<[k := v]> c0, true)).
  { rewrite client_diff_fields. unfold getitem. rewrite Hq; cbn [exc_bind].
    rewrite Hi; cbn [exc_bind].
    apply (compare_all_only _ (Scalar k v)); try done.
    - apply client_keys_nodup.
    - by exists r.
    - intros (r' & Hr' & E). fold c0 in Hr'. congruence. }
  rewrite <- (client_diff_id _ _ _ _ Hd) in Hid.
  by rewrite (client_run_update _ _ _ _ _ Hs Hl Hd Hid).
- intros p client job cid id k v r Hs Hc Hl Hcid Hid Hin Hr Hne Hothers.
  assert (Hd : Job.diff p client job = Ok (<[k := v]> job, true)).
  { rewrite (job_diff_fields _ _ _ _ Hcid).
    apply (compare_all_only _ (Scalar k v)); try done.
    - apply job_keys_nodup.
    - by exists r.
    - intros (r' & Hr' & E). congruence. }
  rewrite <- (job_diff_id _ _ _ _ _ Hd) in Hid.
  by rewrite (job_run_update _ _ _ _ _ _ Hs Hc Hl Hd Hid).
Qed.

Lemma update_replaces_one_field_witness :
writes (Job.run (fixed_server [name1_remote] [job1_old_path] (answer_id (PInt 7)))
          job1_params).1
= [Put Jobs (PInt 7) (<["path" := PStr "/backup"]> job1_old_path)].
Proof.
apply (proj2 (update_replaces_one_field
                (fixed_server [name1_remote] [job1_old_path] (answer_id (PInt 7))))
         job1_params name1_remote job1_old_path (PInt 1) (PInt 7)
         "path" (PStr "/backup") (PStr "/old")); try reflexivity.
- unfold job_fields. simpl. tauto.
- intros f Hin Hne. unfold job_fields in Hin. sample_others Hin Hne.
Defined.

(** C8 as stated does not hold for a Client whose quota is stored as a
  string: with the description alone differing, the dict sent is not
  the fetched one with the description replaced, for its quota has
  become an integer. *)
Lemma update_sends_integer_quota :
name1_old_description = <["description" := PStr "old"]> name1_remote /\
(exists c', Client.diff name1_params name1_remote = Ok (c', false)) /\
name1_old_description !! "quota" = Some (PStr "20000") /\
exists payload,
  writes (Client.run (fixed_server [name1_old_description] [] (answer_id (PInt 1)))
            name1_params).1
  = [Put Clients (PInt 1) payload] /\
  payload !! "quota" = Some (PInt 20000) /\
  payload <> <["description" := PStr "Description for Name1"]> name1_old_description.
Proof.
split; [done|]. split.
{ exists (<["quota" := PInt 20000]> name1_remote). reflexivity. }
split; [done|].
exists (<["description" := PStr "Description for Name1"]>
        (<["quota" := PInt 20000]> name1_old_description)).
split; [reflexivity|]. split; [reflexivity|].
intros H. apply (f_equal (fun m => m !! "quota")) in H. vm_compute in H. discriminate.
Qed.

(** ** A single listed resource under another name *)

Lemma renamed_by_compare (fs : list field) (name : string) (n : pyval)
  (d d' : gmap string pyval) (ch : bool) :
NoDup (map field_key fs) -> In (Scalar "name" (PStr name)) fs ->
d !! "name" = Some n -> n <> PStr name ->
compare_all fs (d, false) = Ok (d', ch) ->
ch = true /\ d' !! "name" = Some (PStr name).
Proof.
intros Hnd Hin Hn Hne H. split.
- destruct ch; [done|]. exfalso.
  apply compare_all_unchanged in H as (_ & _ & Hall).
  apply list_elem_of_In in Hin.
  destruct (proj1 (Forall_forall _ _) Hall _ Hin) as (r & Hr & E).
  apply py_eq_str in E. congruence.
- pose proof (compare_all_result _ _ _ _ _ Hnd H) as Hall.
  apply list_elem_of_In in Hin.
  destruct (proj1 (Forall_forall _ _) Hall _ Hin) as (r & Hr & E).
  apply py_eq_str in E. by subst.
Qed.

(** C9. When the listing holds a single resource, it is taken as the
  target whatever its name; if that name is not the requested one the
  comparisons raise [changed] and set the name, and the run issues
  one update of that resource, carrying the requested name, and no
  create. *)
Theorem single_listed_resource_is_renamed (srv : server) :
(forall (p : Client.params) (c : gmap string pyval) (n id : pyval)
        (st : gmap string pyval * bool),
   Client.state p = present ->
   on_get srv Clients (Client.name p) = [c] ->
   c !! "name" = Some n -> n <> PStr (Client.name p) ->
   c !! "id" = Some id ->
   Client.diff p c = Ok st ->
   Client.get_client_by_name srv (Client.name p) [] =
     ([Get Clients (Client.name p)], Normal (Some c)) /\
   st.2 = true /\
   st.1 !! "name" = Some (PStr (Client.name p)) /\
   writes (Client.run srv p).1 = [Put Clients id st.1])
/\
(forall (p : Job.params) (client job : gmap string pyval) (n id : pyval)
        (st : gmap string pyval * bool),
   Job.state p = present ->
   locate (Job.client_name p) (on_get srv Clients (Job.client_name p)) = Ok (Some client) ->
   on_get srv Jobs (Job.name p) = [job] ->
   job !! "name" = Some n -> n <> PStr (Job.name p) ->
   job !! "id" = Some id ->
   Job.diff p client job = Ok st ->
   Job.get_job_by_name srv (Job.name p) [] =
     ([Get Jobs (Job.name p)], Normal (Some job)) /\
   st.2 = true /\
   st.1 !! "name" = Some (PStr (Job.name p)) /\
   writes (Job.run srv p).1 = [Put Jobs id st.1]).
Proof.
split.
- intros p c n id [c' ch] Hs Hget Hn Hne Hid Hd.
  assert (Hl : locate (Client.name p) (on_get srv Clients (Client.name p)) = Ok (Some c))
    by (by rewrite Hget).
  split.
  { unfold Client.get_client_by_name. by rewrite lookup_run, Hl. }
  pose proof Hd as (qv & q & _ & _ & H)%client_diff_inv.
  assert (Hin : In (Scalar "name" (PStr (Client.name p))) (client_fields p))
    by (unfold client_fields; simpl; tauto).
  assert (Hn' : (<["quota" := PInt q]> c) !! "name" = Some n)
    by (by rewrite lookup_insert_ne).
  destruct (renamed_by_compare _ _ _ _ _ _ (client_keys_nodup p) Hin Hn' Hne H)
    as [-> Hname].
  split; [done|]. split; [done|]. simpl.
  rewrite <- (client_diff_id _ _ _ _ Hd) in Hid.
  by rewrite (client_run_update _ _ _ _ _ Hs Hl Hd Hid).
- intros p client job n id [job' ch] Hs Hc Hget Hn Hne Hid Hd.
  assert (Hl : locate (Job.name p) (on_get srv Jobs (Job.name p)) = Ok (Some job))
    by (by rewrite Hget).
  split.
  { unfold Job.get_job_by_name. by rewrite lookup_run, Hl. }
  pose proof Hd as (cid & _ & H)%job_diff_inv.
  assert (Hin : In (Scalar "name" (PStr (Job.name p))) (job_fields p cid))
    by (unfold job_fields; simpl; tauto).
  destruct (renamed_by_compare _ _ _ _ _ _ (job_keys_nodup p cid) Hin Hn Hne H)
    as [-> Hname].
  split; [done|]. split; [done|]. simpl.
  rewrite <- (job_diff_id _ _ _ _ _ Hd) in Hid.
  by rewrite (job_run_update _ _ _ _ _ _ Hs Hc Hl Hd Hid).
Qed.

Lemma single_listed_resource_is_renamed_witness :
writes (Client.run (fixed_server [name10_remote] [] (answer_id (PInt 2))) name1_params).1
= [Put Clients (PInt 2) (<["name" := PStr "Name1"]> (<["quota" := PInt 20000]> name10_remote))].
Proof.
refine (proj2 (proj2 (proj2
  (proj1 (single_listed_resource_is_renamed
            (fixed_server [name10_remote] [] (answer_id (PInt 2))))
     name1_params name10_remote (PStr "Name10") (PInt 2)
     (<["name" := PStr "Name1"]> (<["quota" := PInt 20000]> name10_remote), true)
     eq_refl eq_refl eq_refl _ eq_refl eq_refl)))).
discriminate.
Defined.

(** ** The quota of a Client *)

(** C10. The fetched quota goes through [int()] before the comparison,
  so a quota stored as the text of the desired integer agrees with
  it: with the other fields agreeing, nothing is changed and no write
  is issued.  No other field is converted: the comparisons come out
  unchanged only if every other field agrees as fetched, and a
  string facing a desired integer in another field is overwritten. *)
Theorem quota_compared_as_integer (p : Client.params) (c : gmap string pyval) :
(forall s : string,
   c !! "quota" = Some (PStr s) -> int_of_str s = Some (Client.quota p) ->
   (forall f, In f (client_fields p) -> field_key f <> "quota" -> matches c f) ->
   Client.diff p c = Ok (<["quota" := PInt (Client.quota p)]> c, false) /\
   forall srv, Client.state p = present ->
     locate (Client.name p) (on_get srv Clients (Client.name p)) = Ok (Some c) ->
     writes (Client.run srv p).1 = [] /\ (Client.run srv p).2 = ExitJson unchanged) /\
(forall c', Client.diff p c = Ok (c', false) ->
   forall f, In f (client_fields p) -> field_key f <> "quota" -> matches c f) /\
(forall (k : string) (i : Z) (s : string) (c' : gmap string pyval) (ch : bool),
   In (Scalar k (PInt i)) (client_fields p) -> k <> "quota" ->
   c !! k = Some (PStr s) -> Client.diff p c = Ok (c', ch) ->
   ch = true /\ c' !! k = Some (PInt i)).
Proof.
split; [|split].
- intros s Hq Hi Hothers.
  assert (Hd : Client.diff p c = Ok (<["quota" := PInt (Client.quota p)]> c, false)).
  { rewrite client_diff_fields. unfold getitem. rewrite Hq; cbn [exc_bind].
    unfold py_int. rewrite Hi; cbn [exc_bind].
    apply compare_all_matches, Forall_forall. intros f Hf%list_elem_of_In.
    destruct (decide (field_key f = "quota")) as [Hk|Hk].
    - unfold client_fields in Hf. simpl in Hf.
      repeat (destruct Hf as [<-|Hf]; [try discriminate Hk|]); [|done].
      exists (PInt (Client.quota p)). by rewrite lookup_insert_eq, py_eq_refl.
    - apply (matches_lookup c); [by rewrite lookup_insert_ne|by apply Hothers]. }
  split; [done|]. intros srv Hs Hl. by rewrite (client_run_noop _ _ _ _ Hs Hl Hd).
- intros c' (qv & q & _ & _ & H)%client_diff_inv f Hf Hk.
  apply compare_all_unchanged in H as (_ & _ & Hall).
  apply list_elem_of_In in Hf.
  apply (matches_lookup (<["quota" := PInt q]> c)); [by rewrite lookup_insert_ne|].
  by apply (proj1 (Forall_forall _ _) Hall).
- intros k i s c' ch Hin Hk Hr (qv & q & _ & _ & H)%client_diff_inv.
  assert (Hch : ch = true).
  { destruct ch; [done|]. exfalso.
    apply compare_all_unchanged in H as (_ & _ & Hall).
    apply list_elem_of_In in Hin.
    destruct (proj1 (Forall_forall _ _) Hall _ Hin) as (r & Hr' & E).
    rewrite lookup_insert_ne in Hr' by done. by simplify_eq. }
  split; [done|].
  pose proof (compare_all_result _ _ _ _ _ (client_keys_nodup p) H) as Hall.
  apply list_elem_of_In in Hin.
  destruct (proj1 (Forall_forall _ _) Hall _ Hin) as (r & Hr' & E).
  destruct (compare_all_lookup _ _ _ _ _ k H) as [Hsame|(f & Hf & Hkf & Hv)].
  + rewrite lookup_insert_ne in Hsame by done.
    rewrite Hsame, Hr in Hr'. by simplify_eq.
  + rewrite Hv. f_equal.
    assert (Hkk : forall g, g ∈ client_fields p -> field_key g = k ->
                            g = Scalar k (PInt i)).
    { intros g Hg Hgk.
      pose proof (client_keys_nodup p) as Hnd.
      apply list_elem_of_lookup in Hg as [a Ha].
      apply list_elem_of_lookup in Hin as [b Hb].
      assert (a = b).
      { apply (NoDup_lookup _ a b k Hnd); rewrite list_lookup_fmap.
        - by rewrite Ha; simpl; rewrite Hgk.
        - by rewrite Hb. }
      subst. congruence. }
    by rewrite (Hkk f Hf Hkf).
Qed.

Lemma quota_compared_as_integer_witness :
Client.diff name1_params name1_remote
= Ok (<["quota" := PInt 20000]> name1_remote, false).
Proof.
apply (proj1 (quota_compared_as_integer name1_params name1_remote) "20000");
  try reflexivity.
intros f Hin Hne. unfold client_fields in Hin. sample_others Hin Hne.
Defined.

(** ** Every run has one of the listed shapes *)

Lemma client_run_view_ok (srv : server) (p : Client.params) :
client_run_view srv p (Client.run srv p).
Proof.
destruct (Client.state p) eqn:Hs;
  destruct (locate (Client.name p) (on_get srv Clients (Client.name p)))
    as [[c|]|e] eqn:Hl.
- destruct (Client.diff p c) as [[c' [|]]|e] eqn:Hd.
  + destruct (c' !! "id") as [i|] eqn:Hi.
    * rewrite (client_run_update _ _ _ _ _ Hs Hl Hd Hi). by eapply CV_update.
    * replace (Client.run srv p)
        with ([Get Clients (Client.name p)], @Raised unit (KeyError "id"));
        [by eapply CV_update_no_id|].
      enter_run Hs. unfold bind at 1 2. rewrite lookup_run, Hl. simpl.
      unfold bind at 1. unfold lift at 1. rewrite Hd. simpl.
      unfold Client.update_client, bind, lift, getitem. by rewrite Hi.
  + rewrite (client_run_noop _ _ _ _ Hs Hl Hd). by eapply CV_noop.
  + replace (Client.run srv p) with ([Get Clients (Client.name p)], @Raised unit e);
      [by eapply CV_diff_raises|].
    enter_run Hs. unfold bind at 1 2. rewrite lookup_run, Hl. simpl.
    unfold bind, lift. by rewrite Hd.
- rewrite (client_run_create _ _ Hs Hl). by apply CV_create.
- replace (Client.run srv p) with ([Get Clients (Client.name p)], @Raised unit e);
    [by apply CV_lookup_raises|].
  enter_run Hs. unfold bind at 1 2. by rewrite lookup_run, Hl.
- destruct (c !! "id") as [i|] eqn:Hi.
  + rewrite (client_run_delete _ _ _ _ Hs Hl Hi). by eapply CV_delete.
  + replace (Client.run srv p)
      with ([Get Clients (Client.name p)], @Raised unit (KeyError "id"));
      [by eapply CV_delete_no_id|].
    enter_run Hs. unfold bind at 1 2. rewrite lookup_run, Hl. simpl.
    unfold bind, lift, getitem. by rewrite Hi.
- rewrite (client_run_absent_missing _ _ Hs Hl). by apply CV_absent_missing.
- replace (Client.run srv p) with ([Get Clients (Client.name p)], @Raised unit e);
    [by apply CV_lookup_raises|].
  enter_run Hs. unfold bind at 1 2. by rewrite lookup_run, Hl.
Qed.

Lemma job_run_view_ok (srv : server) (p : Job.params) :
job_run_view srv p (Job.run srv p).
Proof.
destruct (Job.state p) eqn:Hs.
- destruct (locate (Job.client_name p) (on_get srv Clients (Job.client_name p)))
    as [[client|]|e] eqn:Hc.
  + destruct (locate (Job.name p) (on_get srv Jobs (Job.name p)))
      as [[job|]|e] eqn:Hl.
    * destruct (Job.diff p client job) as [[job' [|]]|e] eqn:Hd.
      -- destruct (job' !! "id") as [i|] eqn:Hi.
         ++ rewrite (job_run_update _ _ _ _ _ _ Hs Hc Hl Hd Hi). by eapply JV_update.
         ++ replace (Job.run srv p)
              with ([Get Clients (Job.client_name p); Get Jobs (Job.name p)],
                    @Raised unit (KeyError "id"));
              [by eapply JV_update_no_id|].
            enter_run Hs. unfold bind at 1 2. rewrite lookup_run, Hc. simpl.
            unfold bind at 1 2. unfold ret at 1. rewrite lookup_run, Hl. simpl.
            unfold bind at 1. unfold lift at 1. rewrite Hd. simpl.
            unfold Job.update_job, bind, lift, getitem. by rewrite Hi.
      -- rewrite (job_run_noop _ _ _ _ _ Hs Hc Hl Hd). by eapply JV_noop.
      -- replace (Job.run srv p)
           with ([Get Clients (Job.client_name p); Get Jobs (Job.name p)],
                 @Raised unit e);
           [by eapply JV_diff_raises|].
         enter_run Hs. unfold bind at 1 2. rewrite lookup_run, Hc. simpl.
         unfold bind at 1 2. unfold ret at 1. rewrite lookup_run, Hl. simpl.
         unfold bind, lift. by rewrite Hd.
    * destruct (Job.new_job p client) as [j|e] eqn:Hj.
      -- rewrite (job_run_create _ _ _ _ Hs Hc Hl Hj). by eapply JV_create.
      -- replace (Job.run srv p)
           with ([Get Clients (Job.client_name p); Get Jobs (Job.name p)],
                 @Raised unit e);
           [by eapply JV_new_job_raises|].
         enter_run Hs. unfold bind at 1 2. rewrite lookup_run, Hc. simpl.
         unfold bind at 1 2. unfold ret at 1. rewrite lookup_run, Hl. simpl.
         unfold bind, lift. by rewrite Hj.
    * replace (Job.run srv p)
        with ([Get Clients (Job.client_name p); Get Jobs (Job.name p)],
              @Raised unit e);
        [by eapply JV_lookup_raises|].
      enter_run Hs. unfold bind at 1 2. rewrite lookup_run, Hc. simpl.
      unfold bind at 1 2. unfold ret at 1. by rewrite lookup_run, Hl.
  + rewrite (job_run_no_client _ _ Hs Hc). by apply JV_no_client.
  + replace (Job.run srv p)
      with ([Get Clients (Job.client_name p)], @Raised unit e);
      [by apply JV_client_lookup_raises|].
    enter_run Hs. unfold bind at 1 2. by rewrite lookup_run, Hc.
- destruct (locate (Job.name p) (on_get srv Jobs (Job.name p)))
    as [[job|]|e] eqn:Hl.
  + destruct (job !! "id") as [i|] eqn:Hi.
    * rewrite (job_run_delete _ _ _ _ Hs Hl Hi). by eapply JV_delete.
    * replace (Job.run srv p)
        with ([Get Jobs (Job.name p)], @Raised unit (KeyError "id"));
        [by eapply JV_delete_no_id|].
      enter_run Hs. unfold bind at 1 2. rewrite lookup_run, Hl. simpl.
      unfold bind, lift, getitem. by rewrite Hi.
  + rewrite (job_run_absent_missing _ _ Hs Hl). by apply JV_absent_missing.
  + replace (Job.run srv p) with ([Get Jobs (Job.name p)], @Raised unit e);
      [by apply JV_absent_lookup_raises|].
    enter_run Hs. unfold bind at 1 2. by rewrite lookup_run, Hl.
Qed.

(** ** What every run does and never does *)

Ltac outcome_cases :=
unfold client_created, job_created, updated, deleted, success, failure, unchanged;
repeat case_match; simpl.

(** X1. A run reads first and writes last, and writes at most once:
  the log of a Client run is its listing call followed by at most one
  write; the log of a Job run is its one or two listing calls
  followed by at most one write. *)
Theorem at_most_one_write_after_reads (srv : server) :
(forall p : Client.params,
   exists ws, (Client.run srv p).1 = Get Clients (Client.name p) :: ws /\
              ws = writes (Client.run srv p).1 /\ (length ws <= 1)%nat) /\
(forall p : Job.params,
   exists reads ws, (Job.run srv p).1 = reads ++ ws /\
                    (1 <= length reads <= 2)%nat /\ writes reads = [] /\
                    ws = writes (Job.run srv p).1 /\ (length ws <= 1)%nat).
Proof.
split; intros p.
- destruct (client_run_view_ok srv p); simpl;
    first [ by exists []; simpl; auto
          | by eexists [_]; simpl; auto ].
- destruct (job_run_view_ok srv p); simpl;
    first [ by eexists [_], []; simpl; repeat split; auto; lia
          | by eexists [_; _], []; simpl; repeat split; auto; lia
          | by eexists [_], [_]; simpl; repeat split; auto; lia
          | by eexists [_; _], [_]; simpl; repeat split; auto; lia ].
Qed.

(** X2. On a normal exit the [changed] flag tells whether a write was
  made: it is set exactly when the run has issued its write; no
  [api_result] is attached, and an [id] is reported only with
  [changed=true]. *)
Theorem changed_reflects_write (srv : server) :
(forall (p : Client.params) (r : result),
   (Client.run srv p).2 = ExitJson r ->
   (r_changed r = true <-> writes (Client.run srv p).1 <> []) /\
   r_api_result r = None /\
   (r_changed r = false -> r_id r = None)) /\
(forall (p : Job.params) (r : result),
   (Job.run srv p).2 = ExitJson r ->
   (r_changed r = true <-> writes (Job.run srv p).1 <> []) /\
   r_api_result r = None /\
   (r_changed r = false -> r_id r = None)).
Proof.
split; intros p r.
- destruct (client_run_view_ok srv p); simpl; outcome_cases;
    intros; simplify_eq; simpl; naive_solver.
- destruct (job_run_view_ok srv p); simpl; outcome_cases;
    intros; simplify_eq; simpl; naive_solver.
Qed.

Lemma changed_reflects_write_witness :
(r_changed (success 12) = true <->
 writes (Client.run (fixed_server [] [] (answer_id (PStr "12"))) name1_params).1 <> []) /\
r_api_result (success 12) = None /\
(r_changed (success 12) = false -> r_id (success 12) = None).
Proof.
apply (proj1 (changed_reflects_write (fixed_server [] [] (answer_id (PStr "12"))))
         name1_params (success 12)).
reflexivity.
Defined.

(** X3. A run ended by [fail_json] carries [changed=false], no [id]
  and an [api_result], under one of the module's messages.  A Client
  run fails only after its write; a Job run fails without a write
  exactly when the message is "Play failed". *)
Theorem failure_result_shape (srv : server) :
(forall (p : Client.params) (msg : string) (r : result),
   (Client.run srv p).2 = FailJson msg r ->
   r_changed r = false /\ r_id r = None /\ is_Some (r_api_result r) /\
   In msg ["Client update failed"; "Client creation failed"; "Client deletion failed"] /\
   writes (Client.run srv p).1 <> []) /\
(forall (p : Job.params) (msg : string) (r : result),
   (Job.run srv p).2 = FailJson msg r ->
   r_changed r = false /\ r_id r = None /\ is_Some (r_api_result r) /\
   In msg ["Play failed"; "Job update failed"; "Job creation failed";
           "Job deletion failed"] /\
   (msg = "Play failed" <-> writes (Job.run srv p).1 = [])).
Proof.
split; intros p msg r.
- destruct (client_run_view_ok srv p); simpl; outcome_cases;
    intros; simplify_eq; simpl; naive_solver.
- destruct (job_run_view_ok srv p); simpl; outcome_cases;
    intros; simplify_eq; simpl; naive_solver.
Qed.

Lemma failure_result_shape_witness :
r_changed (failure (ObjVal (PInt 0))) = false /\
r_id (failure (ObjVal (PInt 0))) = None /\
is_Some (r_api_result (failure (ObjVal (PInt 0)))) /\
In "Client creation failed"
   ["Client update failed"; "Client creation failed"; "Client deletion failed"] /\
writes (Client.run (fixed_server [] [] (answer_id (PInt 0))) name1_params).1 <> [].
Proof.
apply (proj1 (failure_result_shape (fixed_server [] [] (answer_id (PInt 0))))
         name1_params "Client creation failed" (failure (ObjVal (PInt 0)))).
reflexivity.
Defined.

(** X4. The calls follow the requested state and stay within the
  module's collection: a Client run only calls the clients endpoints
  and a Job run only writes to the jobs endpoints; with
  [state=present] no delete is issued; with [state=absent] the only
  write is a delete, and a Job run does not look the Client up. *)
Theorem calls_follow_state (srv : server) :
(forall p : Client.params,
   Forall (fun r => request_kind r = Clients) (Client.run srv p).1 /\
   (Client.state p = present ->
    Forall (fun r => is_delete r = false) (Client.run srv p).1) /\
   (Client.state p = absent ->
    Forall (fun r => is_delete r = true) (writes (Client.run srv p).1))) /\
(forall p : Job.params,
   Forall (fun r => request_kind r = Jobs) (writes (Job.run srv p).1) /\
   (Job.state p = present ->
    Forall (fun r => is_delete r = false) (Job.run srv p).1) /\
   (Job.state p = absent ->
    Forall (fun r => is_delete r = true) (writes (Job.run srv p).1) /\
    Forall (fun r => request_kind r = Jobs) (Job.run srv p).1)).
Proof.
split; intros p.
- destruct (client_run_view_ok srv p); simpl;
    repeat split; intros; try congruence; repeat constructor.
- destruct (job_run_view_ok srv p); simpl;
    repeat split; intros; try congruence; repeat constructor.
Qed.

Lemma calls_follow_state_witness :
Forall (fun r => is_delete r = true)
  (writes (Job.run (fixed_server [] [job1_remote] (answer_id (PInt 7))) job1_absent).1) /\
Forall (fun r => request_kind r = Jobs)
  (Job.run (fixed_server [] [job1_remote] (answer_id (PInt 7))) job1_absent).1.
Proof.
apply (proj2 (calls_follow_state (fixed_server [] [job1_remote] (answer_id (PInt 7))))
         job1_absent).
reflexivity.
Defined.

(** X5. With [state=absent] only the name matters: two runs asking for
  the removal of the same name behave alike, whatever their other
  parameters (for a Job, whatever the Client name). *)
Theorem absent_uses_name_only (srv : server) :
(forall p p' : Client.params,
   Client.state p = absent -> Client.state p' = absent ->
   Client.name p = Client.name p' ->
   Client.run srv p = Client.run srv p') /\
(forall p p' : Job.params,
   Job.state p = absent -> Job.state p' = absent ->
   Job.name p = Job.name p' ->
   Job.run srv p = Job.run srv p').
Proof.
split; intros p p' Hs Hs' Hn.
- unfold Client.run, Client.run_module. by rewrite Hs, Hs', Hn.
- unfold Job.run, Job.run_module. by rewrite Hs, Hs', Hn.
Qed.

Lemma absent_uses_name_only_witness :
Client.run (fixed_server [name1_remote] [] (answer_id (PInt 1))) name1_absent
= Client.run (fixed_server [name1_remote] [] (answer_id (PInt 1))) name1_absent_verbose.
Proof.
apply (proj1 (absent_uses_name_only
                (fixed_server [name1_remote] [] (answer_id (PInt 1)))));
  reflexivity.
Defined.

(** ** Lookup among several listed resources *)

Lemma scan_name_first (name : string) (pre post : list (gmap string pyval))
  (c : gmap string pyval) :
Forall (fun x => exists n, x !! "name" = Some n /\ n <> PStr name) pre ->
(c !! "name" = Some (PStr name) -> scan_name name (pre ++ c :: post) = Ok (Some c)) /\
(c !! "name" = None -> scan_name name (pre ++ c :: post) = Err (KeyError "name")).
Proof.
induction 1 as [|x pre (n & Hn & Hne) _ IH]; simpl; unfold getitem.
- split; intros ->; simpl; [by rewrite String.eqb_refl|done].
- rewrite Hn; simpl.
  destruct (py_eq n (PStr name)) eqn:E; [by apply py_eq_str in E|done].
Qed.

(** X6. When several resources are listed, the scan stops at the first
  one named exactly as asked: what follows it is not inspected.  A
  resource without a name met before any match makes the lookup raise
  [KeyError 'name']. *)
Theorem lookup_stops_at_first_match (srv : server) (name : string) (k : kind)
  (lookup : server -> string -> M (option (gmap string pyval)))
  (pre post : list (gmap string pyval)) (c : gmap string pyval) :
In (k, lookup) [ (Clients, Client.get_client_by_name);
                 (Clients, Job.get_client_by_name);
                 (Jobs, Job.get_job_by_name) ] ->
on_get srv k name = pre ++ c :: post ->
(1 <= length (pre ++ post))%nat ->
Forall (fun x => exists n, x !! "name" = Some n /\ n <> PStr name) pre ->
(c !! "name" = Some (PStr name) ->
 lookup srv name [] = ([Get k name], Normal (Some c))) /\
(c !! "name" = None ->
 lookup srv name [] = ([Get k name], Raised (KeyError "name"))).
Proof.
intros Hin Hget Hlen Hpre.
assert (Hrun : lookup srv name [] =
               ([Get k name], completion_of (locate name (pre ++ c :: post)))).
{ rewrite <- Hget.
  destruct Hin as [[= <- <-]|[[= <- <-]|[[= <- <-]|[]]]];
    unfold Client.get_client_by_name, Job.get_client_by_name, Job.get_job_by_name;
    by rewrite lookup_run. }
rewrite Hrun, locate_many.
- destruct (scan_name_first name pre post c Hpre) as [H1 H2].
  split; intros H; [by rewrite (H1 H)|by rewrite (H2 H)].
- rewrite length_app in *. simpl. lia.
Qed.

Lemma lookup_stops_at_first_match_witness :
Client.get_client_by_name
  (fixed_server [name10_remote; name1_remote; nameless_remote] [] answer_error)
  "Name1" []
= ([Get Clients "Name1"], Normal (Some name1_remote)).
Proof.
refine (proj1 (lookup_stops_at_first_match
          (fixed_server [name10_remote; name1_remote; nameless_remote] [] answer_error)
          "Name1" Clients Client.get_client_by_name
          [name10_remote] [nameless_remote] name1_remote _ eq_refl _ _) eq_refl).
- left. reflexivity.
- simpl. lia.
- repeat constructor. exists (PStr "Name10"). split; [reflexivity|discriminate].
Defined.

(** ** When the comparisons can be evaluated *)

Lemma compare_all_defined (fs : list field) (d : gmap string pyval) (ch : bool)
  (st : gmap string pyval * bool) :
NoDup (map field_key fs) ->
compare_all fs (d, ch) = Ok st -> Forall (comparable d) fs.
Proof.
revert d ch. induction fs as [|f fs IH]; simpl; intros d ch; [by constructor|].
intros [Hk Hnd]%NoDup_cons.
destruct (compare f (d, ch)) as [[d1 ch1]|] eqn:E; simpl; [|done].
intros Hrest. apply compare_inv in E as [Hc Hcases].
constructor; [done|].
apply Forall_forall. intros g Hg.
pose proof (proj1 (Forall_forall _ _) (IH _ _ Hnd Hrest) g Hg) as Hg1.
destruct Hcases as [(_ & -> & _)|(_ & -> & _)]; [done|].
apply (comparable_lookup (<[field_key f := field_val f]> d)); [|done].
rewrite lookup_insert_ne; [done|].
intros Heq. apply Hk. rewrite Heq. by apply list_elem_of_fmap_2.
Qed.

(** X7. The comparisons of a fetched Client evaluate without raising
  exactly when its quota can be read as an integer and every compared
  key is present, the set-valued ones holding something [set()]
  accepts; those of a fetched Job, exactly when the resolved Client
  has an [id] and every compared key is present in the same way. *)
Theorem comparisons_evaluate_iff :
(forall (p : Client.params) (c : gmap string pyval),
   (exists st, Client.diff p c = Ok st) <->
   (exists qv q, c !! "quota" = Some qv /\ py_int qv = Ok q) /\
   Forall (comparable c) (client_fields p)) /\
(forall (p : Job.params) (client job : gmap string pyval),
   (exists st, Job.diff p client job = Ok st) <->
   exists cid, client !! "id" = Some cid /\
               Forall (comparable job) (job_fields p cid)).
Proof.
split.
- intros p c. split.
  + intros ([c' ch] & (qv & q & Hq & Hi & H)%client_diff_inv).
    split; [by exists qv, q|].
    pose proof (compare_all_defined _ _ _ _ (client_keys_nodup p) H) as Hall.
    apply Forall_forall. intros f Hf.
    pose proof (proj1 (Forall_forall _ _) Hall f Hf) as Hcf.
    destruct (decide (field_key f = "quota")) as [Hk|Hk].
    * unfold client_fields in Hf.
      repeat (apply elem_of_cons in Hf as [->|Hf]; [try discriminate Hk|]);
        [|by apply elem_of_nil in Hf].
      simpl. by rewrite Hq.
    * apply (comparable_lookup (<["quota" := PInt q]> c)); [|done].
      by rewrite lookup_insert_ne.
  + intros [(qv & q & Hq & Hi) Hall]. by eapply client_diff_total.
- intros p client job. split.
  + intros ([job' ch] & (cid & Hid & H)%job_diff_inv). exists cid. split; [done|].
    by apply (compare_all_defined _ _ _ _ (job_keys_nodup p cid) H).
  + intros (cid & Hid & Hall). by eapply job_diff_total.
Qed.

(** ** Exceptions raised before the write *)

(** X8. When the comparisons raise, or when the resource to update or
  delete has no [id], the run ends with that exception after its
  listing calls, and no write has been issued. *)
Theorem exception_before_write (srv : server) :
(forall (p : Client.params) (c : gmap string pyval),
   locate (Client.name p) (on_get srv Clients (Client.name p)) = Ok (Some c) ->
   (forall e, Client.state p = present -> Client.diff p c = Err e ->
      Client.run srv p = ([Get Clients (Client.name p)], Raised e)) /\
   (forall c', Client.state p = present -> Client.diff p c = Ok (c', true) ->
      c !! "id" = None ->
      Client.run srv p = ([Get Clients (Client.name p)], Raised (KeyError "id"))) /\
   (Client.state p = absent -> c !! "id" = None ->
      Client.run srv p = ([Get Clients (Client.name p)], Raised (KeyError "id")))) /\
(forall (p : Job.params) (job : gmap string pyval),
   locate (Job.name p) (on_get srv Jobs (Job.name p)) = Ok (Some job) ->
   (forall client e, Job.state p = present ->
      locate (Job.client_name p) (on_get srv Clients (Job.client_name p))
        = Ok (Some client) ->
      Job.diff p client job = Err e ->
      Job.run srv p =
      ([Get Clients (Job.client_name p); Get Jobs (Job.name p)], Raised e)) /\
   (forall client job', Job.state p = present ->
      locate (Job.client_name p) (on_get srv Clients (Job.client_name p))
        = Ok (Some client) ->
      Job.diff p client job = Ok (job', true) -> job !! "id" = None ->
      Job.run srv p =
      ([Get Clients (Job.client_name p); Get Jobs (Job.name p)],
       Raised (KeyError "id"))) /\
   (Job.state p = absent -> job !! "id" = None ->
      Job.run srv p = ([Get Jobs (Job.name p)], Raised (KeyError "id")))) /\
(forall (p : Job.params) (client : gmap string pyval),
   Job.state p = present ->
   locate (Job.client_name p) (on_get srv Clients (Job.client_name p)) = Ok (Some client) ->
   locate (Job.name p) (on_get srv Jobs (Job.name p)) = Ok None ->
   client !! "id" = None ->
   Job.run srv p =
   ([Get Clients (Job.client_name p); Get Jobs (Job.name p)], Raised (KeyError "id"))).
Proof.
split; [|split].
- intros p c Hl. repeat apply conj.
  + intros e Hs Hd. destruct (client_run_view_ok srv p); congruence.
  + intros c' Hs Hd Hid. rewrite <- (client_diff_id _ _ _ _ Hd) in Hid.
    destruct (client_run_view_ok srv p); congruence.
  + intros Hs Hid. destruct (client_run_view_ok srv p); congruence.
- intros p job Hl. repeat apply conj.
  + intros client e Hs Hc Hd. destruct (job_run_view_ok srv p); congruence.
  + intros client job' Hs Hc Hd Hid. rewrite <- (job_diff_id _ _ _ _ _ Hd) in Hid.
    destruct (job_run_view_ok srv p); congruence.
  + intros Hs Hid. destruct (job_run_view_ok srv p); congruence.
- intros p client Hs Hc Hl Hid.
  assert (Hj : Job.new_job p client = Err (KeyError "id"))
    by (unfold Job.new_job, getitem; by rewrite Hid).
  destruct (job_run_view_ok srv p); congruence.
Qed.

Lemma exception_before_write_witness :
Client.run (fixed_server [name1_null_quota] [] (answer_id (PInt 1))) name1_params
= ([Get Clients "Name1"], Raised TypeError).
Proof.
apply (proj1 (proj1 (exception_before_write
                (fixed_server [name1_null_quota] [] (answer_id (PInt 1))))
                name1_params name1_null_quota eq_refl)); reflexivity.
Defined.

(** X9. The quota of a fetched Client is read first: when it is missing
  the run ends with [KeyError 'quota'], and when [int()] rejects it
  the run ends with what [int()] raises ([TypeError] for null),
  whatever the other fields hold and without any write. *)
Theorem unreadable_quota_raises (srv : server) (p : Client.params)
  (c : gmap string pyval) :
Client.state p = present ->
locate (Client.name p) (on_get srv Clients (Client.name p)) = Ok (Some c) ->
(c !! "quota" = None ->
 Client.run srv p = ([Get Clients (Client.name p)], Raised (KeyError "quota"))) /\
(forall qv e, c !! "quota" = Some qv -> py_int qv = Err e ->
 Client.run srv p = ([Get Clients (Client.name p)], Raised e)) /\
(c !! "quota" = Some PNone ->
 Client.run srv p = ([Get Clients (Client.name p)], Raised TypeError)).
Proof.
intros Hs Hl.
assert (Hrun : forall e, Client.diff p c = Err e ->
               Client.run srv p = ([Get Clients (Client.name p)], Raised e)).
{ intros e Hd. destruct (client_run_view_ok srv p); congruence. }
repeat apply conj.
- intros Hq. apply Hrun. unfold Client.diff, getitem. by rewrite Hq.
- intros qv e Hq Hi. apply Hrun. unfold Client.diff, getitem. rewrite Hq. simpl.
  by rewrite Hi.
- intros Hq. apply Hrun. unfold Client.diff, getitem. by rewrite Hq.
Qed.

Lemma unreadable_quota_raises_witness :
Client.run (fixed_server [name1_no_quota] [] (answer_id (PInt 1))) name1_params
= ([Get Clients "Name1"], Raised (KeyError "quota")).
Proof.
apply (proj1 (unreadable_quota_raises
                (fixed_server [name1_no_quota] [] (answer_id (PInt 1)))
                name1_params name1_no_quota eq_refl eq_refl)).
reflexivity.
Defined.

(** ** The answers to the write *)

(** X10. After an update has been sent: an answer without [id] ends
  the run in a failure carrying the body of the answer; an answer
  whose [id] is not a non-zero integer (zero, a string, null, ...)
  ends it with an uncaught [AttributeError]. *)
Theorem update_answer (srv : server) :
(forall (p : Client.params) (c c' : gmap string pyval) (id : pyval),
   Client.state p = present ->
   locate (Client.name p) (on_get srv Clients (Client.name p)) = Ok (Some c) ->
   Client.diff p c = Ok (c', true) -> c !! "id" = Some id ->
   let body := resp_json (on_put srv Clients id c') in
   writes (Client.run srv p).1 = [Put Clients id c'] /\
   (body !! "id" = None ->
    (Client.run srv p).2 =
    FailJson "Client update failed"
      {| r_changed := false; r_id := None; r_api_result := Some (ObjDict body) |}) /\
   (forall v, body !! "id" = Some v -> (forall i, v = PInt i -> i = 0) ->
    (Client.run srv p).2 = Raised AttributeError)) /\
(forall (p : Job.params) (client job job' : gmap string pyval) (id : pyval),
   Job.state p = present ->
   locate (Job.client_name p) (on_get srv Clients (Job.client_name p)) = Ok (Some client) ->
   locate (Job.name p) (on_get srv Jobs (Job.name p)) = Ok (Some job) ->
   Job.diff p client job = Ok (job', true) -> job !! "id" = Some id ->
   let body := resp_json (on_put srv Jobs id job') in
   writes (Job.run srv p).1 = [Put Jobs id job'] /\
   (body !! "id" = None ->
    (Job.run srv p).2 =
    FailJson "Job update failed"
      {| r_changed := false; r_id := None; r_api_result := Some (ObjDict body) |}) /\
   (forall v, body !! "id" = Some v -> (forall i, v = PInt i -> i = 0) ->
    (Job.run srv p).2 = Raised AttributeError)).
Proof.
assert (Hu : forall msg resp,
           (resp_json resp !! "id" = None ->
            updated msg resp = FailJson msg (failure (ObjDict (resp_json resp)))) /\
           (forall v, resp_json resp !! "id" = Some v ->
                      (forall i, v = PInt i -> i = 0) ->
                      updated msg resp = Raised AttributeError)).
{ intros msg resp. unfold updated. split.
  - by intros ->.
  - intros v -> Hv. destruct v as [| |z| |]; try done.
    by rewrite (Hv z eq_refl). }
split.
- intros p c c' id Hs Hl Hd Hid body.
  rewrite <- (client_diff_id _ _ _ _ Hd) in Hid.
  rewrite (client_run_update _ _ _ _ _ Hs Hl Hd Hid). simpl.
  split; [done|]. apply Hu.
- intros p client job job' id Hs Hc Hl Hd Hid body.
  rewrite <- (job_diff_id _ _ _ _ _ Hd) in Hid.
  rewrite (job_run_update _ _ _ _ _ _ Hs Hc Hl Hd Hid). simpl.
  split; [done|]. apply Hu.
Qed.

Lemma update_answer_witness :
(Job.run (fixed_server [name1_remote] [job1_old_path] (answer_id (PStr "7")))
   job1_params).2
= Raised AttributeError.
Proof.
pose proof (proj2 (update_answer
                     (fixed_server [name1_remote] [job1_old_path] (answer_id (PStr "7"))))
              job1_params name1_remote job1_old_path
              (<["path" := PStr "/backup"]> job1_old_path) (PInt 7)
              eq_refl eq_refl eq_refl eq_refl eq_refl) as (_ & _ & H).
apply (H (PStr "7")); [reflexivity|discriminate].
Defined.

(** X11. After a create has been sent: an [id] that [int()] rejects
  ends the run with the exception of [int()]; an [id] read as zero
  makes a Client run fail with that zero as [api_result] and a Job
  run end with an uncaught [AttributeError]; an answer without [id]
  makes a Client run hand the response object to [fail_json], which
  cannot serialise it: the run ends with an uncaught [TypeError]. *)
Theorem create_answer (srv : server) :
(forall p : Client.params,
   Client.state p = present ->
   locate (Client.name p) (on_get srv Clients (Client.name p)) = Ok None ->
   let resp := on_post srv Clients (Client.new_client p) in
   writes (Client.run srv p).1 = [Post Clients (Client.new_client p)] /\
   (forall v e, resp_json resp !! "id" = Some v -> py_int v = Err e ->
    (Client.run srv p).2 = Raised e) /\
   (forall v, resp_json resp !! "id" = Some v -> py_int v = Ok 0 ->
    (Client.run srv p).2 =
    FailJson "Client creation failed"
      {| r_changed := false; r_id := None; r_api_result := Some (ObjVal (PInt 0)) |}) /\
   (resp_json resp !! "id" = None -> (Client.run srv p).2 = Raised TypeError)) /\
(forall (p : Job.params) (client j : gmap string pyval),
   Job.state p = present ->
   locate (Job.client_name p) (on_get srv Clients (Job.client_name p)) = Ok (Some client) ->
   locate (Job.name p) (on_get srv Jobs (Job.name p)) = Ok None ->
   Job.new_job p client = Ok j ->
   let resp := on_post srv Jobs j in
   writes (Job.run srv p).1 = [Post Jobs j] /\
   (forall v e, resp_json resp !! "id" = Some v -> py_int v = Err e ->
    (Job.run srv p).2 = Raised e) /\
   (forall v, resp_json resp !! "id" = Some v -> py_int v = Ok 0 ->
    (Job.run srv p).2 = Raised AttributeError)).
Proof.
split.
- intros p Hs Hl resp. rewrite (client_run_create _ _ Hs Hl). simpl. fold resp.
  unfold client_created. repeat apply conj.
  + done.
  + intros v e -> Hi. by rewrite Hi.
  + intros v -> Hi. by rewrite Hi.
  + by intros ->.
- intros p client j Hs Hc Hl Hj resp. rewrite (job_run_create _ _ _ _ Hs Hc Hl Hj).
  simpl. fold resp. unfold job_created. repeat apply conj.
  + done.
  + intros v e -> Hi. by rewrite Hi.
  + intros v -> Hi. by rewrite Hi.
Qed.

Lemma create_answer_witness :
(Job.run (fixed_server [name1_remote] [] (answer_id (PInt 0))) job1_params).2
= Raised AttributeError.
Proof.
pose proof (proj2 (create_answer (fixed_server [name1_remote] [] (answer_id (PInt 0))))
              job1_params name1_remote _ eq_refl eq_refl eq_refl eq_refl) as (_ & _ & H).
apply (H (PInt 0)); reflexivity.
Defined.

(** X12. After a delete has been sent, only the status of the answer
  counts, its body is not read: a success status ends the run with
  [changed=true]; a failure status makes the run hand the response
  object to [fail_json], which cannot serialise it, so that the run
  ends with an uncaught [TypeError]. *)
Theorem delete_answer (srv : server) :
(forall (p : Client.params) (c : gmap string pyval) (id : pyval),
   Client.state p = absent ->
   locate (Client.name p) (on_get srv Clients (Client.name p)) = Ok (Some c) ->
   c !! "id" = Some id ->
   Client.run srv p =
   ([Get Clients (Client.name p); Delete Clients id],
    if resp_ok (on_delete srv Clients id)
    then ExitJson {| r_changed := true; r_id := None; r_api_result := None |}
    else Raised TypeError)) /\
(forall (p : Job.params) (job : gmap string pyval) (id : pyval),
   Job.state p = absent ->
   locate (Job.name p) (on_get srv Jobs (Job.name p)) = Ok (Some job) ->
   job !! "id" = Some id ->
   Job.run srv p =
   ([Get Jobs (Job.name p); Delete Jobs id],
    if resp_ok (on_delete srv Jobs id)
    then ExitJson {| r_changed := true; r_id := None; r_api_result := None |}
    else Raised TypeError)).
Proof.
split.
- intros p c id Hs Hl Hid. by rewrite (client_run_delete _ _ _ _ Hs Hl Hid).
- intros p job id Hs Hl Hid. by rewrite (job_run_delete _ _ _ _ Hs Hl Hid).
Qed.

Lemma delete_answer_witness :
Job.run (fixed_server [] [job1_remote] answer_error) job1_absent =
([Get Jobs "job1"; Delete Jobs (PInt 7)], Raised TypeError).
Proof.
apply (proj2 (delete_answer (fixed_server [] [job1_remote] answer_error))
         job1_absent job1_remote (PInt 7)); reflexivity.
Defined.

(** ** What an update leaves alone *)

Lemma compare_all_keys (fs : list field) (d d' : gmap string pyval) (ch ch' : bool)
  (k : string) :
compare_all fs (d, ch) = Ok (d', ch') -> is_Some (d' !! k) <-> is_Some (d !! k).
Proof.
revert d ch. induction fs as [|f fs IH]; simpl; intros d ch.
- by intros [= <- <-].
- destruct (compare f (d, ch)) as [[d1 ch1]|] eqn:E; simpl; [|done].
  intros Hrest. rewrite (IH _ _ Hrest).
  apply compare_inv in E as [Hc [(_ & -> & _)|(_ & -> & _)]]; [done|].
  destruct (decide (field_key f = k)) as [<-|Hne].
  + rewrite lookup_insert_eq. split; [intros _|by eauto].
    destruct f; simpl in *; [done|]. destruct Hc as (r & ? & ? & Hr & _). by exists r.
  + by rewrite lookup_insert_ne.
Qed.

(** X13. The comparisons add and remove no key, and leave every entry
  they do not compare as fetched: the dict sent by an update has the
  keys of the fetched one, and whatever the service stores beside the
  compared fields (the [id], the owner, ...) is sent back untouched. *)
Theorem update_keeps_other_entries :
(forall (p : Client.params) (c c' : gmap string pyval) (ch : bool),
   Client.diff p c = Ok (c', ch) ->
   (forall k, is_Some (c' !! k) <-> is_Some (c !! k)) /\
   (forall k, ~ In k (map field_key (client_fields p)) -> c' !! k = c !! k)) /\
(forall (p : Job.params) (client job job' : gmap string pyval) (ch : bool),
   Job.diff p client job = Ok (job', ch) ->
   (forall k, is_Some (job' !! k) <-> is_Some (job !! k)) /\
   (forall k cid, ~ In k (map field_key (job_fields p cid)) -> job' !! k = job !! k)).
Proof.
split.
- intros p c c' ch (qv & q & Hq & Hi & H)%client_diff_inv. split.
  + intros k. rewrite (compare_all_keys _ _ _ _ _ k H).
    destruct (decide (k = "quota")) as [->|Hne].
    * rewrite lookup_insert_eq, Hq. split; eauto.
    * by rewrite lookup_insert_ne.
  + intros k Hk.
    rewrite (compare_all_frame _ _ _ _ _ k H); [|by rewrite list_elem_of_In].
    rewrite lookup_insert_ne; [done|].
    intros <-. apply Hk. unfold client_fields. simpl. tauto.
- intros p client job job' ch (cid & Hid & H)%job_diff_inv. split.
  + intros k. apply (compare_all_keys _ _ _ _ _ k H).
  + intros k cid' Hk.
    apply (compare_all_frame _ _ _ _ _ k H). rewrite list_elem_of_In.
    intros Hin. apply Hk. unfold job_fields in *. exact Hin.
Qed.

Lemma update_keeps_other_entries_witness :
(<["description" := PStr "Description for Name1"]>
   (<["quota" := PInt 20000]> name1_old_description)) !! "owner"
= name1_old_description !! "owner".
Proof.
refine (proj2 (proj1 update_keeps_other_entries name1_params name1_old_description
                 _ true eq_refl) "owner" _).
unfold client_fields. simpl. intros H.
repeat (destruct H as [H|H]; [discriminate H|]). exact H.
Defined.

(** ** The dict sent by an update, field by field *)

Lemma compare_all_fieldwise (fs : list field) (d d' : gmap string pyval) (ch ch' : bool)
  (f : field) :
NoDup (map field_key fs) -> f ∈ fs ->
compare_all fs (d, ch) = Ok (d', ch') ->
(matches d f -> d' !! field_key f = d !! field_key f) /\
(~ matches d f -> d' !! field_key f = Some (field_val f)).
Proof.
revert d ch. induction fs as [|g fs IH]; simpl; intros d ch Hnd Hin.
- by apply elem_of_nil in Hin.
- apply NoDup_cons in Hnd as [Hk Hnd].
  destruct (compare g (d, ch)) as [[d1 ch1]|] eqn:E; simpl; [|done].
  intros Hrest.
  apply elem_of_cons in Hin as [->|Hin].
  + rewrite (compare_all_frame _ _ _ _ _ _ Hrest Hk).
    apply compare_inv in E as [_ [(Hm & -> & _)|(Hn & -> & _)]].
    * split; [done|]. intros Hn. by destruct Hn.
    * split; [intros Hm; by destruct Hn|]. intros _. by rewrite lookup_insert_eq.
  + destruct (IH _ _ Hnd Hin Hrest) as [H1 H2].
    assert (Hsame : d1 !! field_key f = d !! field_key f).
    { apply compare_inv in E as [_ [(_ & -> & _)|(_ & -> & _)]]; [done|].
      rewrite lookup_insert_ne; [done|].
      intros Heq. apply Hk. rewrite Heq. by apply list_elem_of_fmap_2. }
    split.
    * intros Hm. rewrite <- Hsame. apply H1. by apply (matches_lookup d).
    * intros Hn. apply H2. intros Hm. apply Hn. by apply (matches_lookup d1).
Qed.

(** X14. Whatever the number of fields that differ, the dict sent by an
  update holds, for each compared field, the fetched value when it
  agrees with the desired one (the Client quota as the integer read
  from it) and the desired value when it does not. *)
Theorem update_payload_fieldwise :
(forall (p : Client.params) (c c' : gmap string pyval) (ch : bool) (qv : pyval) (q : Z)
        (f : field),
   Client.diff p c = Ok (c', ch) ->
   c !! "quota" = Some qv -> py_int qv = Ok q ->
   In f (client_fields p) ->
   let c0 := <["quota" := PInt q]> c in
   (matches c0 f -> c' !! field_key f = c0 !! field_key f) /\
   (~ matches c0 f -> c' !! field_key f = Some (field_val f))) /\
(forall (p : Job.params) (client job job' : gmap string pyval) (ch : bool)
        (cid : pyval) (f : field),
   Job.diff p client job = Ok (job', ch) ->
   client !! "id" = Some cid ->
   In f (job_fields p cid) ->
   (matches job f -> job' !! field_key f = job !! field_key f) /\
   (~ matches job f -> job' !! field_key f = Some (field_val f))).
Proof.
split.
- intros p c c' ch qv q f (qv' & q' & Hq' & Hi' & H)%client_diff_inv Hq Hi Hin c0.
  assert (q' = q) as -> by congruence.
  apply (compare_all_fieldwise _ _ _ _ _ f (client_keys_nodup p)
           (proj2 (list_elem_of_In _ _) Hin) H).
- intros p client job job' ch cid f (cid' & Hid' & H)%job_diff_inv Hid Hin.
  assert (cid' = cid) as -> by congruence.
  apply (compare_all_fieldwise _ _ _ _ _ f (job_keys_nodup p cid)
           (proj2 (list_elem_of_In _ _) Hin) H).
Qed.

Lemma update_payload_fieldwise_witness :
(<["exclude" := PNone]> job1_empty_exclude) !! "exclude" = Some PNone.
Proof.
refine (proj2 (proj2 update_payload_fieldwise job1_params name1_remote
                 job1_empty_exclude _ true (PInt 1)
                 (Scalar "exclude" PNone) eq_refl eq_refl _) _).
- unfold job_fields. simpl. tauto.
- intros (r & Hr & E). change (Some (PStr EmptyString) = Some r) in Hr.
  injection Hr as <-. discriminate E.
Defined.
